(** * NeMo dialogue data preparation: MS MARCO processor and S2S generation dataset

    A shallow embedding of

    - [nemo/collections/nlp/data/dialogue/data_processor/ms_marco_data_processor.py]
      ([DialogueMSMarcoDataProcessor]) and
    - [nemo/collections/nlp/data/dialogue/dataset/dialogue_s2s_generation_dataset.py]
      ([DialogueS2SGenerationDataset]),

    together with the properties of the train/dev/test split, the record
    normalisation, the sample filter, the prompt template and the padding
    adjustment of the target sequence.

    Conventions of the embedding.

    - Python exceptions are values of [exn]; a computation that may raise has
      type [result A] and is sequenced with [x <- c ;; k].
    - A Python [str] is a Rocq [string], each character read as the code
      point of the same number (so the strings covered are those whose code
      points are below 256).
    - The values found in the JSON corpus and produced by [ast.literal_eval]
      are values of [pyval]: [None], booleans, integers, strings, lists,
      tuples and dictionaries with string keys.  Floating point numbers,
      bytes and sets are outside the embedding.
    - Python dictionaries with string keys that the code indexes by name are
      finite maps [gmap string _].
    - What depends on the interpreter is a parameter: the parser of
      [ast.literal_eval] and the limit [sys.get_int_max_str_digits()] on the
      digits of a numeral that [int] converts. *)

From Stdlib Require Import ZArith Ascii String List.
From stdpp Require Import base tactics option list strings gmap pretty sorting.

Local Open Scope Z_scope.
Local Open Scope string_scope.
Local Open Scope list_scope.
Local Open Scope nat_scope.

(** ** Exceptions and the error monad *)

Inductive exn : Set :=
  | KeyError
  | IndexError
  | TypeError
  | ValueError
  | AttributeError
  | SyntaxError
  | NameError
  | FileNotFoundError.

Inductive result (A : Type) : Type :=
  | Ok (a : A)
  | Raise (e : exn).

Arguments Ok {A} a.
Arguments Raise {A} e.

Definition bind {A B : Type} (c : result A) (k : A → result B) : result B :=
  match c with
  | Ok a => k a
  | Raise e => Raise e
  end.

Notation "x <- c ;; k" := (bind c (fun x => k))
  (at level 100, c at next level, right associativity, only parsing).

(** [for x in l: acc = body(acc, x)], stopping at the first exception. *)
Fixpoint for_each {A S : Type} (body : S → A → result S) (l : list A) (acc : S)
  : result S :=
  match l with
  | [] => Ok acc
  | x :: l' => acc' <- body acc x ;; for_each body l' acc'
  end.

(** ** Python built-ins used by the two files *)

Module Py.

(** *** Strings *)

(** [str.isspace] on one character, for code points below 256:
    U+0009..U+000D, U+001C..U+0020, U+0085 and U+00A0. *)
Definition isspace (c : ascii) : bool :=
  let n := nat_of_ascii c in
  ((9 <=? n) && (n <=? 13)) || ((28 <=? n) && (n <=? 32))
  || (n =? 133) || (n =? 160).

Fixpoint lstrip (s : string) : string :=
  match s with
  | EmptyString => EmptyString
  | String c s' => if isspace c then lstrip s' else s
  end.

Fixpoint rstrip (s : string) : string :=
  match s with
  | EmptyString => EmptyString
  | String c s' =>
      match rstrip s' with
      | EmptyString => if isspace c then EmptyString else String c EmptyString
      | r => String c r
      end
  end.

(** [s.strip()] *)
Definition strip (s : string) : string := rstrip (lstrip s).

(** [s.split(sep)] for a one-character separator: every occurrence of the
    separator cuts, and the result is never the empty list. *)
Fixpoint split (sep : ascii) (s : string) : list string :=
  match s with
  | EmptyString => [EmptyString]
  | String c s' =>
      if Ascii.eqb c sep then EmptyString :: split sep s'
      else match split sep s' with
           | h :: t => String c h :: t
           | [] => [String c EmptyString]
           end
  end.

(** [sep.join(l)] *)
Fixpoint join (sep : string) (l : list string) : string :=
  match l with
  | [] => EmptyString
  | [x] => x
  | x :: l' => x +:+ sep +:+ join sep l'
  end.

(** [str(i)] for a non-negative integer: its decimal numeral. *)
Definition str (i : nat) : string := pretty i.

(** [s] consists of white space only (the empty string included). *)
Definition blank (s : string) : Prop :=
  Forall (λ c, isspace c = true) (list_ascii_of_string s).

(** *** Values *)

#[warnings="-register-all"]
Inductive pyval : Type :=
  | PNone
  | PBool (b : bool)
  | PInt (z : Z)
  | PStr (s : string)
  | PList (l : list pyval)
  | PTuple (l : list pyval)
  | PDict (l : list (string * pyval)).

(** Truth value of an object ([bool(v)], as tested by [if], [not], [or]). *)
Definition truthy (v : pyval) : bool :=
  match v with
  | PNone => false
  | PBool b => b
  | PInt z => negb (z =? 0)%Z
  | PStr s => negb (String.eqb s EmptyString)
  | PList l | PTuple l => match l with [] => false | _ => true end
  | PDict l => match l with [] => false | _ => true end
  end.

(** [isinstance(v, list)] *)
Definition is_list (v : pyval) : bool :=
  match v with PList _ => true | _ => false end.

(** [v[0]] *)
Definition item0 (v : pyval) : result pyval :=
  match v with
  | PList (x :: _) | PTuple (x :: _) => Ok x
  | PList [] | PTuple [] => Raise IndexError
  | PStr (String c _) => Ok (PStr (String c EmptyString))
  | PStr EmptyString => Raise IndexError
  | PDict _ => Raise KeyError
  | PNone | PBool _ | PInt _ => Raise TypeError
  end.

Fixpoint assoc (k : string) (l : list (string * pyval)) : option pyval :=
  match l with
  | [] => None
  | (k', v) :: l' => if String.eqb k k' then Some v else assoc k l'
  end.

(** [v[k]] for a string key [k] *)
Definition item (v : pyval) (k : string) : result pyval :=
  match v with
  | PDict l => match assoc k l with Some x => Ok x | None => Raise KeyError end
  | _ => Raise TypeError
  end.

(** The elements a [for] loop or a comprehension draws from [v]. *)
Definition iter (v : pyval) : result (list pyval) :=
  match v with
  | PList l | PTuple l => Ok l
  | PStr s => Ok (map (λ c, PStr (String c EmptyString)) (list_ascii_of_string s))
  | PDict l => Ok (map (λ kv, PStr (fst kv)) l)
  | PNone | PBool _ | PInt _ => Raise TypeError
  end.

(** *** [int(v)] *)

Definition digit (c : ascii) : option Z :=
  let n := nat_of_ascii c in
  if (48 <=? n) && (n <=? 57) then Some (Z.of_nat (n - 48)) else None.

(** Digits with single underscores allowed between two digits.
    [acc] is the value read so far, [after_digit] tells whether the previous
    character was a digit. *)
Fixpoint digits (s : string) (acc : Z) (after_digit : bool) : option Z :=
  match s with
  | EmptyString => if after_digit then Some acc else None
  | String c s' =>
      match digit c with
      | Some d => digits s' (10 * acc + d)%Z true
      | None =>
          if Ascii.eqb c "_"%char && after_digit then
            match s' with
            | EmptyString => None
            | String c' _ =>
                match digit c' with
                | Some _ => digits s' acc false
                | None => None
                end
            end
          else None
      end
  end.

(** The white space that [int] skips around a numeral.  The conversion
    turns the spaces of Unicode above the ASCII range (U+0085 and U+00A0
    here) into blanks and then skips the ASCII white space of C, U+0009 ..
    U+000D and U+0020; unlike [str.strip] it does not skip U+001C ..
    U+001F. *)
Definition int_space (c : ascii) : bool :=
  let n := nat_of_ascii c in
  ((9 <=? n) && (n <=? 13)) || (n =? 32) || (n =? 133) || (n =? 160).

Fixpoint lstrip_int (s : string) : string :=
  match s with
  | EmptyString => EmptyString
  | String c s' => if int_space c then lstrip_int s' else s
  end.

Fixpoint rstrip_int (s : string) : string :=
  match s with
  | EmptyString => EmptyString
  | String c s' =>
      match rstrip_int s' with
      | EmptyString => if int_space c then EmptyString else String c EmptyString
      | r => String c r
      end
  end.

(** The number of digits of a numeral (its underscores are not counted). *)
Fixpoint digit_count (s : string) : nat :=
  match s with
  | EmptyString => 0
  | String c s' =>
      match digit c with
      | Some _ => S (digit_count s')
      | None => digit_count s'
      end
  end.

(** The interpreter's limit on the conversion of a numeral of [n] digits:
    [max_str_digits] is [sys.get_int_max_str_digits()], 4300 unless set
    otherwise, and 0 when there is no limit (also for an interpreter older
    than the limit); no numeral of at most 640 digits is refused. *)
Definition too_many_digits (max_str_digits n : nat) : bool :=
  (640 <? n) && (0 <? max_str_digits) && (max_str_digits <? n).

(** The numeral after the sign. *)
Definition numeral (max_str_digits : nat) (s : string) : option Z :=
  match digits s 0%Z false with
  | Some z => if too_many_digits max_str_digits (digit_count s) then None
              else Some z
  | None => None
  end.

(** [int(s)] for a string: surrounding white space, an optional sign, then
    decimal digits. *)
Definition int_of_str (max_str_digits : nat) (s : string) : option Z :=
  match rstrip_int (lstrip_int s) with
  | String "+"%char r => numeral max_str_digits r
  | String "-"%char r => Z.opp <$> numeral max_str_digits r
  | r => numeral max_str_digits r
  end.

Definition int (max_str_digits : nat) (v : pyval) : result Z :=
  match v with
  | PInt z => Ok z
  | PBool b => Ok (if b then 1 else 0)%Z
  | PStr s => match int_of_str max_str_digits s with
              | Some z => Ok z
              | None => Raise ValueError
              end
  | PNone | PList _ | PTuple _ | PDict _ => Raise TypeError
  end.

(** *** Sequences *)

(** [l[i]] for a Python integer [i]: negative indices count from the end. *)
Definition getitem {A : Type} (l : list A) (i : Z) : result A :=
  let n := Z.of_nat (length l) in
  let j := (if i <? 0 then i + n else i)%Z in
  if (j <? 0)%Z then Raise IndexError
  else match l !! Z.to_nat j with
       | Some x => Ok x
       | None => Raise IndexError
       end.

End Py.

(** ** The MS MARCO data processor *)

Module MSMarco.
Import Py.

(** A parsed JSON document of the corpus: an object whose members ([query],
    [answers], [wellFormedAnswers], [query_type], [passages]) are objects
    keyed by the decimal numeral of the record index. *)
Abbreviation corpus := (gmap string (gmap string pyval)).

(** The example handed to [DialogueInputExample]: the dictionary literal
    built for each record, with its four keys. *)
Record input_example : Type := {
  utterance : pyval;
  example_id : nat;
  labels : gmap string pyval;
  possible_labels : gmap string pyval
}.

(** Modelled from the spec: the class [DialogueInputExample] is imported from
    [input_example.py], which is not among the sources; the spec describes an
    example as a plain value object, and both files only read and write its
    attribute [data]. *)
Record DialogueInputExample : Type := { data : input_example }.

(** [self]: the data directory maps a file name to the JSON document that
    [json.load] reads from it. *)
Record DialogueMSMarcoDataProcessor : Type := {
  data_dir : gmap string corpus
}.

(** [d[k]] on a dictionary indexed by name *)
Definition getkey {V : Type} (d : gmap string V) (k : string) : result V :=
  match d !! k with
  | Some v => Ok v
  | None => Raise KeyError
  end.

Definition open_json (self : DialogueMSMarcoDataProcessor) (filename : string)
  : result corpus :=
  match data_dir self !! filename with
  | Some d => Ok d
  | None => Raise FileNotFoundError
  end.

Definition dataset_split_print : gmap string string :=
  <["train" := "train"]> (<["dev" := "train"]> (<["test" := "dev"]> ∅)).

(** The loop of the ["train"] branch: [idxs.append(idx)] when [idx % 10 != 0]. *)
Definition train_idxs (n : nat) : list nat :=
  fold_left (λ idxs idx, if negb (idx mod 10 =? 0) then idxs ++ [idx] else idxs)
            (seq 0 n) [].

(** The loop of the ["dev"] branch: [idxs.append(idx)] when [idx % 10 == 0]. *)
Definition dev_idxs (n : nat) : list nat :=
  fold_left (λ idxs idx, if idx mod 10 =? 0 then idxs ++ [idx] else idxs)
            (seq 0 n) [].

(** The ["test"] branch: [list(range(n))]. *)
Definition test_idxs (n : nat) : list nat := seq 0 n.

(** The [if]/[elif] chain that binds [idxs]; no branch binds it for another
    split name. *)
Definition select_idxs (dataset_split : string) (n : nat) : result (list nat) :=
  if String.eqb dataset_split "train" then Ok (train_idxs n)
  else if String.eqb dataset_split "dev" then Ok (dev_idxs n)
  else if String.eqb dataset_split "test" then Ok (test_idxs n)
  else Raise NameError.

Section Processor.

(** [sys.get_int_max_str_digits()] of the interpreter that runs the code
    (0 when it has no limit). *)
Variable int_max_str_digits : nat.

(** [ast.literal_eval] on a string; its parser is the standard library's. *)
Variable literal_eval_str : string → result pyval.

(** [literal_eval(v)]: an argument that is neither a string nor a syntax
    node is a malformed node. *)
Definition literal_eval (v : pyval) : result pyval :=
  match v with
  | PStr s => literal_eval_str s
  | _ => Raise ValueError
  end.

(** [[cp["passage_text"] for cp in cps if int(cp["is_selected"])]] *)
Definition selected_passages (cps : list pyval) : result (list pyval) :=
  for_each (λ acc cp,
      flag <- item cp "is_selected" ;;
      z <- int int_max_str_digits flag ;;
      if negb (z =? 0)%Z
      then (text <- item cp "passage_text" ;; Ok (acc ++ [text]))
      else Ok acc)
    cps [].

(** [[cp["passage_text"] for cp in cps]] *)
Definition all_passages (cps : list pyval) : result (list pyval) :=
  for_each (λ acc cp, text <- item cp "passage_text" ;; Ok (acc ++ [text])) cps [].

Definition service_labels : pyval :=
  PList (map PStr (split "," "LOCATION,NUMERIC,PERSON,DESCRIPTION,ENTITY")).

(** The body of the loop over [idxs], up to the construction of the example. *)
Definition make_example (raw_examples : corpus) (i : nat)
  : result DialogueInputExample :=
  queries <- getkey raw_examples "query" ;;
  utterance <- getkey queries (str i) ;;
  answers <- getkey raw_examples "answers" ;;
  answer <- getkey answers (str i) ;;
  answer <- (if is_list answer then item0 answer else Ok answer) ;;
  wfas <- getkey raw_examples "wellFormedAnswers" ;;
  well_formed_answer <- getkey wfas (str i) ;;
  well_formed_answer <-
    (if is_list well_formed_answer then Ok well_formed_answer
     else literal_eval well_formed_answer) ;;
  well_formed_answer <-
    (if truthy well_formed_answer then item0 well_formed_answer else Ok PNone) ;;
  query_types <- getkey raw_examples "query_type" ;;
  query_type <- getkey query_types (str i) ;;
  passages <- getkey raw_examples "passages" ;;
  candidate_passages <- getkey passages (str i) ;;
  cps <- iter candidate_passages ;;
  passage <- selected_passages cps ;;
  passage <- (if truthy (PList passage) then item0 (PList passage) else Ok PNone) ;;
  cps' <- iter candidate_passages ;;
  possible_passages <- all_passages cps' ;;
  Ok {| data := {|
    utterance := utterance;
    example_id := i;
    labels :=
      <["service" := query_type]> (<["response" := answer]>
      (<["fluent_response" := well_formed_answer]> (<["passage" := passage]> ∅)));
    possible_labels :=
      <["service" := service_labels]> (<["passage" := PList possible_passages]> ∅)
  |} |}.

Definition get_dialog_examples (self : DialogueMSMarcoDataProcessor)
  (dataset_split : string) : result (list DialogueInputExample) :=
  source <- getkey dataset_split_print dataset_split ;;
  raw_examples <- open_json self (source +:+ "_v2.1.json") ;;
  answers <- getkey raw_examples "answers" ;;
  idxs <- select_idxs dataset_split (size answers) ;;
  for_each (λ examples i,
      example <- make_example raw_examples i ;;
      Ok (examples ++ [example]))
    idxs [].

Definition get_train_examples self := get_dialog_examples self "train".
Definition get_dev_examples self := get_dialog_examples self "dev".
Definition get_test_examples self := get_dialog_examples self "test".

End Processor.

End MSMarco.

(** ** The sequence-to-sequence generation dataset *)

Module S2S.
Import Py MSMarco.

(** The fields of [cfg] that the dataset reads. *)
Record Config : Type := {
  input_field : string;
  output_field : string;
  max_seq_length : Z;
  debug_mode : bool
}.

(** What a call of the tokenizer returns: the elements of
    [encodings_dict['input_ids']] and of [encodings_dict['attention_mask']].
    A tensor is the list of its elements; [torch.squeeze] keeps them. *)
Record Encoding : Type := {
  input_ids : list Z;
  attention_mask : list Z
}.

Inductive padding_mode : Set := NoPadding | MaxLength.

(** The tokenizer object: [self.tokenizer.tokenizer(sentence, truncation=True,
    max_length=..., padding=..., return_tensors="pt")] and its
    [pad_token_id].  The call is the external library's; it may raise.
    The tokenizer has a padding token, which padding to the maximal length
    requires, so [pad_token_id] is an integer. *)
Record Tokenizer : Type := {
  tokenizer : pyval → Z → padding_mode → result Encoding;
  pad_token_id : Z
}.

Record DialogueS2SGenerationDataset : Type := {
  cfg : Config;
  tokenizer_obj : Tokenizer;
  features : list DialogueInputExample
}.

Definition input_label_type (self : DialogueS2SGenerationDataset) : string :=
  input_field (cfg self).

Definition output_label_type (self : DialogueS2SGenerationDataset) : string :=
  output_field (cfg self).

(** [ex["labels"]["utterance"] = ex["utterance"]] *)
Definition set_utterance (ex : input_example) : input_example :=
  {| utterance := utterance ex;
     example_id := example_id ex;
     labels := <["utterance" := utterance ex]> (labels ex);
     possible_labels := possible_labels ex |}.

Definition inject (f : DialogueInputExample) : DialogueInputExample :=
  {| data := set_utterance (data f) |}.

(** [v.strip()] *)
Definition strip_method (v : pyval) : result pyval :=
  match v with
  | PStr s => Ok (PStr (strip s))
  | _ => Raise AttributeError
  end.

(** [not labels[field] or not labels[field].strip()] *)
Definition field_empty (lbls : gmap string pyval) (field : string) : result bool :=
  v <- getkey lbls field ;;
  if negb (truthy v) then Ok true
  else (v' <- getkey lbls field ;;
        stripped <- strip_method v' ;;
        Ok (negb (truthy stripped))).

Definition all_fields (self : DialogueS2SGenerationDataset) : list string :=
  split "+" (input_label_type self) ++ split "+" (output_label_type self).

(** The inner loop over [all_fields]; the flag starts [True] and the loop
    does not stop early. *)
Definition all_fields_non_empty (self : DialogueS2SGenerationDataset)
  (lbls : gmap string pyval) : result bool :=
  for_each (λ flag field,
      empty <- field_empty lbls field ;;
      Ok (if empty then false else flag))
    (all_fields self) true.

(** One round of the outer loop on the pair ([features], [valid_idxs]);
    the assignment to [labels["utterance"]] updates the object held at
    position [i] of [features]. *)
Definition remove_invalid_step (self : DialogueS2SGenerationDataset)
  (st : list DialogueInputExample * list nat) (i : nat)
  : result (list DialogueInputExample * list nat) :=
  let '(feats, valid_idxs) := st in
  f <- getitem feats (Z.of_nat i) ;;
  let f' := inject f in
  let feats' := <[i := f']> feats in
  ok <- all_fields_non_empty self (labels (data f')) ;;
  Ok (feats', if ok then valid_idxs ++ [i] else valid_idxs).

Definition remove_invalid_samples (self : DialogueS2SGenerationDataset)
  (feats : list DialogueInputExample) : result (list DialogueInputExample) :=
  st <- for_each (remove_invalid_step self) (seq 0 (length feats)) (feats, []) ;;
  for_each (λ acc i, f <- getitem (fst st) (Z.of_nat i) ;; Ok (acc ++ [f]))
           (snd st) [].

(** The constructor.  [dataset_split] is a string or a sequence of strings;
    [dialogues_processor] is the method [get_dialog_examples] of the
    processor object. *)
Definition __init__ (dataset_split : string + list string)
  (dialogues_processor : string → result (list DialogueInputExample))
  (tok : Tokenizer) (c : Config) : result DialogueS2SGenerationDataset :=
  dataset_split <- match dataset_split with
                   | inl s => Ok s
                   | inr l => getitem l 0%Z
                   end ;;
  feats <- dialogues_processor dataset_split ;;
  let self := {| cfg := c; tokenizer_obj := tok; features := feats |} in
  feats <- remove_invalid_samples self (features self) ;;
  let feats := if debug_mode c then take 16 feats else feats in
  Ok {| cfg := c; tokenizer_obj := tok; features := feats |}.

Definition __len__ (self : DialogueS2SGenerationDataset) : nat :=
  length (features self).

(** Returns the elements of [input_ids] and of [attn_masks]. *)
Definition default_encode (self : DialogueS2SGenerationDataset) (sentence : pyval)
  : result Encoding :=
  tokenizer (tokenizer_obj self) sentence (max_seq_length (cfg self)) MaxLength.

(** [a + b] where [a] is a string *)
Definition str_add (a : string) (b : pyval) : result string :=
  match b with
  | PStr s => Ok (a +:+ s)
  | _ => Raise TypeError
  end.

(** [format_prompt] returns the sentence; the dictionary [ex] it updated is
    returned with it. *)
Definition format_prompt (self : DialogueS2SGenerationDataset) (ex : input_example)
  : result (input_example * string) :=
  let ex := set_utterance ex in
  let parts := split "+" (input_label_type self) in
  fragments <- for_each (λ acc part,
                   v <- getkey (labels ex) part ;;
                   fragment <- str_add (part +:+ ": ") v ;;
                   Ok (acc ++ [fragment]))
                 parts [] ;;
  Ok (ex, join " " fragments).

(** [labels[labels == pad_token_id] = -100] *)
Definition mask_padding (pad : Z) (lbls : list Z) : list Z :=
  map (λ t, if (t =? pad)%Z then (-100)%Z else t) lbls.

(** [__getitem__] up to the two calls of [default_encode]: the encoding of
    the prompt and the encoding of the target. *)
Definition encode_example (self : DialogueS2SGenerationDataset) (idx : Z)
  : result (Encoding * Encoding) :=
  f <- getitem (features self) idx ;;
  let ex := data f in
  r <- format_prompt self ex ;;
  let '(ex, input_sentence) := r in
  output_sentence <- getkey (labels ex) (output_label_type self) ;;
  enc_in <- default_encode self (PStr input_sentence) ;;
  enc_out <- default_encode self output_sentence ;;
  Ok (enc_in, enc_out).

Definition __getitem__ (self : DialogueS2SGenerationDataset) (idx : Z)
  : result (list Z * list Z * list Z) :=
  encs <- encode_example self idx ;;
  let '(enc_in, enc_out) := encs in
  let lbls := mask_padding (pad_token_id (tokenizer_obj self)) (input_ids enc_out) in
  Ok (input_ids enc_in, attention_mask enc_in, lbls).

(** [torch.squeeze] on the shape of a tensor: the dimensions of size 1 are
    removed. *)
Definition squeeze_shape (shape : list nat) : list nat :=
  filter (λ d, d ≠ 1) shape.

(** [get_n_tokens_in_sentence].  With [return_tensors="pt"] the tokenizer
    returns the ids of one sentence as a tensor of shape [(1, n)]; [output]
    is that tensor squeezed, [len(output.size())] the number of its
    dimensions and [len(output)] the size of its first dimension. *)
Definition get_n_tokens_in_sentence (self : DialogueS2SGenerationDataset)
  (sentence : pyval) : result nat :=
  encodings_dict <- tokenizer (tokenizer_obj self) sentence
                      (max_seq_length (cfg self)) NoPadding ;;
  let output_size := squeeze_shape [1; length (input_ids encodings_dict)] in
  Ok (if 0 <? length output_size then default 0 (head output_size) else 0).

End S2S.

(** ** Notions used to state the properties *)

(** [[f(x) for x in l]] where [f] may raise *)
Fixpoint mapM {A B : Type} (f : A → result B) (l : list A) : result (list B) :=
  match l with
  | [] => Ok []
  | x :: l' => y <- f x ;; ys <- mapM f l' ;; Ok (y :: ys)
  end.

(** The concatenation of the lists [g(x)], [x] in [l], where [g] may raise *)
Fixpoint concatM {A B : Type} (g : A → result (list B)) (l : list A)
  : result (list B) :=
  match l with
  | [] => Ok []
  | x :: l' => o <- g x ;; r <- concatM g l' ;; Ok (o ++ r)
  end.

(** What the two comprehensions of [get_dialog_examples] contribute for one
    candidate passage. *)
Definition selected_text (max_digits : nat) (cp : Py.pyval)
  : result (list Py.pyval) :=
  flag <- Py.item cp "is_selected" ;;
  z <- Py.int max_digits flag ;;
  if negb (z =? 0)%Z
  then (text <- Py.item cp "passage_text" ;; Ok [text])
  else Ok [].

Definition passage_text (cp : Py.pyval) : result Py.pyval :=
  Py.item cp "passage_text".

(** The candidate passage is flagged: [int(cp["is_selected"])] is a non-zero
    integer. *)
Definition is_selected (max_digits : nat) (cp : Py.pyval) : Prop :=
  ∃ flag z, Py.item cp "is_selected" = Ok flag
            ∧ Py.int max_digits flag = Ok z ∧ z ≠ 0%Z.

(** The label [field] holds a string that is neither empty nor made of white
    space only. *)
Definition field_present (lbls : gmap string Py.pyval) (field : string) : Prop :=
  ∃ s, lbls !! field = Some (Py.PStr s) ∧ s ≠ EmptyString ∧ ¬ Py.blank s.

(** The label [field] holds [None] (or another false value), or a string
    that is empty or made of white space only. *)
Definition field_lacking (lbls : gmap string Py.pyval) (field : string) : Prop :=
  ∃ v, lbls !! field = Some v
       ∧ (Py.truthy v = false ∨ ∃ s, v = Py.PStr s ∧ Py.blank s).

(** Every field named by [input_field] or [output_field] is present in the
    labels of the example. *)
Definition complete (self : S2S.DialogueS2SGenerationDataset)
  (f : MSMarco.DialogueInputExample) : Prop :=
  Forall (field_present (MSMarco.labels (MSMarco.data f))) (S2S.all_fields self).

(** The labels of the example hold [None] or a string for every field named
    by [input_field] or [output_field]. *)
Definition well_typed (self : S2S.DialogueS2SGenerationDataset)
  (f : MSMarco.DialogueInputExample) : Prop :=
  Forall (λ field, ∃ v, MSMarco.labels (MSMarco.data f) !! field = Some v
                        ∧ (v = Py.PNone ∨ ∃ s, v = Py.PStr s))
         (S2S.all_fields self).

#[export] Instance blank_dec s : Decision (Py.blank s).
Proof. unfold Py.blank. apply _. Defined.

#[export] Instance field_present_dec lbls field : Decision (field_present lbls field).
Proof.
  unfold field_present.
  destruct (lbls !! field) as [v|]; [|right; by intros (s & [=] & _)].
  destruct v as [| | |s| | |];
    try (right; by intros (s' & [=] & _)).
  destruct (decide (s ≠ EmptyString ∧ ¬ Py.blank s)) as [H|H].
  - left. by exists s.
  - right. intros (s' & [= <-] & H'). by apply H.
Defined.

#[export] Instance complete_dec self f : Decision (complete self f).
Proof. unfold complete. apply _. Defined.

(** The indices that the loop of [remove_invalid_samples] appends, for the
    examples [todo] held at positions [start], [start + 1], ... *)
Fixpoint valid_from (self : S2S.DialogueS2SGenerationDataset) (start : nat)
  (todo : list MSMarco.DialogueInputExample) : list nat :=
  match todo with
  | [] => []
  | f :: todo' =>
      (if decide (complete self (S2S.inject f)) then [start] else [])
      ++ valid_from self (S start) todo'
  end.

Definition is_Ok {A : Type} (r : result A) : Prop :=
  match r with Ok _ => True | Raise _ => False end.

(** ** Sample data

    A small corpus in the MS MARCO layout, a processor over it and a toy
    tokenizer, on which the statements below are exercised. *)

Module Sample.
Import Py MSMarco S2S.

(** A parser for the examples: it agrees with [ast.literal_eval] on the text
    of the empty list, the only text the sample corpus makes it read, and
    rejects every other text. *)
Definition literal_eval_str (s : string) : result pyval :=
  if String.eqb s "[]" then Ok (PList []) else Raise ValueError.

(** The default limit of the interpreter on the digits of a numeral. *)
Definition max_str_digits : nat := 4300.

Definition candidate (selected : Z) (text : string) : pyval :=
  PDict [("is_selected", PInt selected); ("passage_text", PStr text)].

(** Record [i]: the first candidate passage is never selected, the second
    one is unless [i] is a multiple of 3, the third one is when [i] is odd
    (so records 0 and 6 have no selected passage); every fourth record has a
    well-formed answer; the answer of every fifth record is a plain string. *)
Definition raw_answer (i : nat) : pyval :=
  if i mod 5 =? 0 then PStr ("answer " +:+ str i)
  else PList [PStr ("answer " +:+ str i); PStr "another answer"].

Definition raw_well_formed (i : nat) : pyval :=
  if i mod 4 =? 0 then PList [PStr ("The answer is " +:+ str i +:+ ".")]
  else PStr "[]".

Definition raw_passages (i : nat) : pyval :=
  PList [candidate 0 ("first passage of " +:+ str i);
         candidate (if i mod 3 =? 0 then 0 else 1) ("second passage of " +:+ str i);
         candidate (if i mod 2 =? 0 then 0 else 1) ("third passage of " +:+ str i)].

Definition column (n : nat) (f : nat → pyval) : gmap string pyval :=
  list_to_map (map (λ i, (str i, f i)) (seq 0 n)).

Definition make_corpus (n : nat) : corpus :=
  <["query" := column n (λ i, PStr ("query " +:+ str i))]>
  (<["answers" := column n raw_answer]>
  (<["wellFormedAnswers" := column n raw_well_formed]>
  (<["query_type" := column n (λ _, PStr "NUMERIC")]>
  (<["passages" := column n raw_passages]> ∅)))).

Definition train_file : corpus := make_corpus 12.
Definition dev_file : corpus := make_corpus 3.

(** A file whose [wellFormedAnswers] entries are JSON [null]. *)
Definition null_answers_file : corpus :=
  <["wellFormedAnswers" := column 3 (λ _, PNone)]> dev_file.

Definition processor : DialogueMSMarcoDataProcessor :=
  {| data_dir := <["train_v2.1.json" := train_file]>
                 (<["dev_v2.1.json" := dev_file]> ∅) |}.

(** A processor whose dev file has 40 records. *)
Definition large_processor : DialogueMSMarcoDataProcessor :=
  {| data_dir := <["dev_v2.1.json" := make_corpus 40]> ∅ |}.

(** A character-level tokenizer: the token ids of a text are the code points
    of its characters, cut at [max_length] and, with padding to the maximal
    length, filled up with the padding id 0. *)
Definition char_tokenizer : Tokenizer :=
  {| tokenizer := λ sentence max_length padding,
       match sentence with
       | PStr s =>
           let ids := take (Z.to_nat max_length)
                        (map (λ c, Z.of_nat (nat_of_ascii c))
                             (list_ascii_of_string s)) in
           let fill := match padding with
                       | MaxLength => Z.to_nat max_length - length ids
                       | NoPadding => 0
                       end in
           Ok {| input_ids := ids ++ replicate fill 0%Z;
                 attention_mask :=
                   replicate (length ids) 1%Z ++ replicate fill 0%Z |}
       | _ => Raise ValueError
       end;
     pad_token_id := 0%Z |}.

Definition passage_config : Config :=
  {| input_field := "passage+utterance"; output_field := "response";
     max_seq_length := 8; debug_mode := false |}.

Definition debug_config : Config :=
  {| input_field := "utterance"; output_field := "response";
     max_seq_length := 8; debug_mode := true |}.

(** The dataset object at the time [remove_invalid_samples] is called. *)
Definition passage_dataset (feats : list DialogueInputExample)
  : DialogueS2SGenerationDataset :=
  {| cfg := passage_config; tokenizer_obj := char_tokenizer; features := feats |}.

(** An example with an utterance and a response but no gold passage. *)
Definition no_passage_example : DialogueInputExample :=
  {| data := {|
       utterance := PStr "U";
       example_id := 0;
       labels := <["service" := PStr "NUMERIC"]> (<["response" := PStr "R"]>
                 (<["fluent_response" := PNone]> (<["passage" := PNone]> ∅)));
       possible_labels := <["service" := service_labels]>
                          (<["passage" := PList [PStr "P"]]> ∅) |} |}.

(** The same example with the gold passage "P". *)
Definition passage_example : DialogueInputExample :=
  {| data := {|
       utterance := PStr "U";
       example_id := 1;
       labels := <["service" := PStr "NUMERIC"]> (<["response" := PStr "R"]>
                 (<["fluent_response" := PNone]> (<["passage" := PStr "P"]> ∅)));
       possible_labels := <["service" := service_labels]>
                          (<["passage" := PList [PStr "P"]]> ∅) |} |}.

(** A file whose candidate passages carry the flag made of the separator
    U+001F and the digit 1. *)
Definition separator_flag_file : corpus :=
  <["passages" :=
      column 3 (λ _, PList [PDict [("is_selected",
                                    PStr (String (ascii_of_nat 31) "1"));
                                   ("passage_text", PStr "t")]])]>
  dev_file.

(** A data directory whose two files have an empty [answers] mapping and
    nothing else. *)
Definition empty_processor : DialogueMSMarcoDataProcessor :=
  {| data_dir := <["train_v2.1.json" := <["answers" := ∅]> ∅]>
                 (<["dev_v2.1.json" := <["answers" := ∅]> ∅]> ∅) |}.

(** A data directory whose dev file has an empty list of answers for
    record 1. *)
Definition empty_answer_processor : DialogueMSMarcoDataProcessor :=
  {| data_dir :=
       <["dev_v2.1.json" :=
           <["answers" := <["1" := PList []]> (column 3 raw_answer)]> dev_file]>
       ∅ |}.

(** A file whose well-formed answers are all lists. *)
Definition list_answers_file : corpus :=
  <["wellFormedAnswers" := column 3 (λ i, PList [PStr ("Answer " +:+ str i)])]>
  dev_file.

Definition list_answers_processor : DialogueMSMarcoDataProcessor :=
  {| data_dir := <["dev_v2.1.json" := list_answers_file]> ∅ |}.

(** A configuration whose output names two fields. *)
Definition combined_config : Config :=
  {| input_field := "utterance"; output_field := "response+fluent_response";
     max_seq_length := 8; debug_mode := false |}.

(** A configuration whose input names a field that is no label. *)
Definition question_config : Config :=
  {| input_field := "question"; output_field := "response";
     max_seq_length := 8; debug_mode := false |}.

End Sample.

(** ** Generic facts on loops *)

Lemma bind_Ok_inv {A B : Type} (c : result A) (k : A → result B) (b : B) :
  bind c k = Ok b → ∃ a, c = Ok a ∧ k a = Ok b.
Proof. destruct c as [a|e]; simpl; [eauto | discriminate]. Qed.

Lemma for_each_concatM {A B : Type} (body : list B → A → result (list B))
  (g : A → result (list B)) (l : list A) (acc : list B) :
  (∀ acc x, body acc x = (o <- g x ;; Ok (acc ++ o))) →
  for_each body l acc = (r <- concatM g l ;; Ok (acc ++ r)).
Proof.
  intros Hbody. revert acc.
  induction l as [|x l IH]; intros acc; simpl.
  - by rewrite app_nil_r.
  - rewrite Hbody. destruct (g x) as [o|e]; simpl; [|done].
    rewrite IH. destruct (concatM g l) as [r|e]; simpl; [|done].
    by rewrite app_assoc.
Qed.

Lemma for_each_mapM {A B : Type} (f : A → result B) (l : list A) (acc : list B) :
  for_each (λ acc x, y <- f x ;; Ok (acc ++ [y])) l acc
  = (ys <- mapM f l ;; Ok (acc ++ ys)).
Proof.
  revert acc. induction l as [|x l IH]; intros acc; simpl.
  - by rewrite app_nil_r.
  - destruct (f x) as [y|e]; simpl; [|done].
    rewrite IH. destruct (mapM f l) as [ys|e]; simpl; [|done].
    by rewrite <- app_assoc.
Qed.

Lemma mapM_Ok_Forall2 {A B : Type} (f : A → result B) (l : list A) (ys : list B) :
  mapM f l = Ok ys ↔ Forall2 (λ x y, f x = Ok y) l ys.
Proof.
  revert ys. induction l as [|x l IH]; intros ys; simpl.
  - split; [intros [= <-]; constructor | by inversion 1].
  - split.
    + intros H. apply bind_Ok_inv in H as (y & Hy & H).
      apply bind_Ok_inv in H as (ys' & Hys & [= <-]).
      constructor; [done | by apply IH].
    + inversion 1 as [|? y ? ys' Hy Hys]; subst.
      rewrite Hy. simpl. apply IH in Hys. by rewrite Hys.
Qed.

Lemma mapM_is_Ok {A B : Type} (f : A → result B) (l : list A) :
  (∀ x, x ∈ l → is_Ok (f x)) → is_Ok (mapM f l).
Proof.
  induction l as [|x l IH]; intros H; simpl; [done|].
  pose proof (H x (list_elem_of_here _ _)) as Hx.
  destruct (f x) as [y|e]; simpl in *; [|done].
  destruct (mapM f l) as [ys|e] eqn:E; simpl; [done|].
  apply IH. intros z Hz. apply H. by apply list_elem_of_further.
Qed.

(** ** The train/dev/test split *)

Module SplitFacts.
Import Py MSMarco.

Lemma fold_append_filter (P : nat → Prop) `{∀ i, Decision (P i)}
  (p : nat → bool) (l acc : list nat) :
  (∀ i, p i = true ↔ P i) →
  fold_left (λ idxs idx, if p idx then idxs ++ [idx] else idxs) l acc
  = acc ++ filter P l.
Proof.
  intros Hp. revert acc. induction l as [|x l IH]; intros acc; simpl.
  - by rewrite app_nil_r.
  - rewrite IH. destruct (p x) eqn:E.
    + rewrite filter_cons_True by (by apply Hp). by rewrite <- app_assoc.
    + rewrite filter_cons_False; [done|]. rewrite <- Hp. congruence.
Qed.

Lemma train_idxs_filter n :
  train_idxs n = filter (λ i, i mod 10 ≠ 0) (seq 0 n).
Proof.
  unfold train_idxs.
  rewrite (fold_append_filter (λ i, i mod 10 ≠ 0)); [done|].
  intros i. rewrite negb_true_iff, Nat.eqb_neq. done.
Qed.

Lemma dev_idxs_filter n :
  dev_idxs n = filter (λ i, i mod 10 = 0) (seq 0 n).
Proof.
  unfold dev_idxs.
  rewrite (fold_append_filter (λ i, i mod 10 = 0)); [done|].
  intros i. apply Nat.eqb_eq.
Qed.

Lemma div10_step_multiple n :
  n mod 10 = 0 → (S n + 9) / 10 = S ((n + 9) / 10) ∧ n = 10 * ((n + 9) / 10).
Proof.
  intros Hm.
  pose proof (Nat.div_mod_eq n 10). pose proof (Nat.div_mod_eq (n + 9) 10).
  pose proof (Nat.div_mod_eq (S n + 9) 10).
  pose proof (Nat.mod_upper_bound (n + 9) 10).
  pose proof (Nat.mod_upper_bound (S n + 9) 10). lia.
Qed.

Lemma div10_step_other n :
  n mod 10 ≠ 0 → (S n + 9) / 10 = (n + 9) / 10.
Proof.
  intros Hm.
  pose proof (Nat.div_mod_eq n 10). pose proof (Nat.div_mod_eq (n + 9) 10).
  pose proof (Nat.div_mod_eq (S n + 9) 10).
  pose proof (Nat.mod_upper_bound n 10).
  pose proof (Nat.mod_upper_bound (n + 9) 10).
  pose proof (Nat.mod_upper_bound (S n + 9) 10). lia.
Qed.

Lemma dev_idxs_multiples n :
  dev_idxs n = map (λ k, 10 * k) (seq 0 ((n + 9) / 10)).
Proof.
  rewrite dev_idxs_filter. induction n as [|n IH]; [done|].
  rewrite seq_S, filter_app, IH. change (0 + n) with n.
  destruct (decide (n mod 10 = 0)) as [Hm|Hm].
  - rewrite filter_cons_True, filter_nil by done.
    destruct (div10_step_multiple n Hm) as [-> Hn].
    rewrite seq_S, map_app. change (0 + ?x) with x. cbn [map].
    by rewrite <- Hn.
  - rewrite filter_cons_False, filter_nil, app_nil_r by done.
    by rewrite (div10_step_other n Hm).
Qed.

End SplitFacts.

Module ProcessorFacts.
Import Py MSMarco SplitFacts.

(** [int] skips the blanks of C and the spaces above the ASCII range around a
    numeral, but not the separators U+001C .. U+001F, which [str.strip]
    removes: a flag made of U+001F and the digit 1 is a [ValueError]. *)
Lemma int_white_space max_digits :
  int max_digits (PStr (String (ascii_of_nat 31) "1")) = Raise ValueError
  ∧ strip (String (ascii_of_nat 31) "1") = "1"
  ∧ int max_digits (PStr (String (ascii_of_nat 160) " 1 ")) = Ok 1%Z
  ∧ int max_digits (PStr "-1_0") = Ok (-10)%Z.
Proof. by split_and!. Qed.

(** The limit on the digits of a numeral: at most 640 digits are always
    converted, and more than 640 are refused when they exceed a limit that
    is not 0. *)
Lemma too_many_digits_spec max_digits n :
  too_many_digits max_digits n = true
  ↔ 640 < n ∧ 0 < max_digits ∧ max_digits < n.
Proof.
  unfold too_many_digits.
  rewrite !andb_true_iff, !Nat.ltb_lt. tauto.
Qed.

Section WithParser.
Variable max_digits : nat.
Variable le : string → result pyval.

Lemma getkey_Ok {V : Type} (d : gmap string V) k v :
  getkey d k = Ok v → d !! k = Some v.
Proof. unfold getkey. by destruct (d !! k); intros [= ->]. Qed.

Lemma selected_passages_concatM cps :
  selected_passages max_digits cps = concatM (selected_text max_digits) cps.
Proof.
  unfold selected_passages.
  rewrite (for_each_concatM _ (selected_text max_digits)).
  - by destruct (concatM _ _).
  - intros acc cp. unfold selected_text.
    destruct (item cp "is_selected") as [flag|]; simpl; [|done].
    destruct (int max_digits flag) as [z|]; simpl; [|done].
    destruct (negb (z =? 0)%Z); simpl; [|by rewrite app_nil_r].
    by destruct (item cp "passage_text").
Qed.

Lemma all_passages_mapM cps :
  all_passages cps = mapM passage_text cps.
Proof.
  unfold all_passages, passage_text. rewrite for_each_mapM.
  by destruct (mapM _ _).
Qed.

(** The steps of a successful [make_example], one by one. *)
Lemma make_example_inv raw i f :
  make_example max_digits le raw i = Ok f →
  ∃ queries utt answers a answer wfas w coll fluent qts qt passages cand cps
    sel texts,
    raw !! "query" = Some queries ∧ queries !! str i = Some utt
    ∧ raw !! "answers" = Some answers ∧ answers !! str i = Some a
    ∧ (if is_list a then item0 a else Ok a) = Ok answer
    ∧ raw !! "wellFormedAnswers" = Some wfas ∧ wfas !! str i = Some w
    ∧ (if is_list w then Ok w else literal_eval le w) = Ok coll
    ∧ (if truthy coll then item0 coll else Ok PNone) = Ok fluent
    ∧ raw !! "query_type" = Some qts ∧ qts !! str i = Some qt
    ∧ raw !! "passages" = Some passages ∧ passages !! str i = Some cand
    ∧ iter cand = Ok cps
    ∧ concatM (selected_text max_digits) cps = Ok sel
    ∧ mapM passage_text cps = Ok texts
    ∧ utterance (data f) = utt
    ∧ labels (data f) !! "service" = Some qt
    ∧ labels (data f) !! "response" = Some answer
    ∧ labels (data f) !! "fluent_response" = Some fluent
    ∧ labels (data f) !! "passage" = Some (default PNone (head sel))
    ∧ possible_labels (data f) !! "service" = Some service_labels
    ∧ possible_labels (data f) !! "passage" = Some (PList texts).
Proof.
  unfold make_example. intros H.
  apply bind_Ok_inv in H as (queries & Hq%getkey_Ok & H).
  apply bind_Ok_inv in H as (utt & Hu%getkey_Ok & H).
  apply bind_Ok_inv in H as (answers & Has%getkey_Ok & H).
  apply bind_Ok_inv in H as (a & Ha%getkey_Ok & H).
  apply bind_Ok_inv in H as (answer & Hanswer & H).
  apply bind_Ok_inv in H as (wfas & Hws%getkey_Ok & H).
  apply bind_Ok_inv in H as (w & Hw%getkey_Ok & H).
  apply bind_Ok_inv in H as (coll & Hcoll & H).
  apply bind_Ok_inv in H as (fluent & Hfluent & H).
  apply bind_Ok_inv in H as (qts & Hqts%getkey_Ok & H).
  apply bind_Ok_inv in H as (qt & Hqt%getkey_Ok & H).
  apply bind_Ok_inv in H as (passages & Hps%getkey_Ok & H).
  apply bind_Ok_inv in H as (cand & Hcand%getkey_Ok & H).
  apply bind_Ok_inv in H as (cps & Hcps & H).
  apply bind_Ok_inv in H as (sel & Hsel & H).
  apply bind_Ok_inv in H as (gold & Hgold & H).
  apply bind_Ok_inv in H as (cps' & Hcps' & H).
  apply bind_Ok_inv in H as (texts & Htexts & H).
  rewrite Hcps in Hcps'. injection Hcps' as <-.
  rewrite selected_passages_concatM in Hsel.
  rewrite all_passages_mapM in Htexts.
  assert (gold = default PNone (head sel)) as ->.
  { destruct sel; simpl in Hgold; by injection Hgold. }
  injection H as <-. simpl.
  exists queries, utt, answers, a, answer, wfas, w, coll, fluent, qts, qt,
    passages, cand, cps, sel, texts.
  split_and!; try done.
Qed.

Lemma selected_text_Ok cp o :
  selected_text max_digits cp = Ok o →
  (is_selected max_digits cp ∧ ∃ t, passage_text cp = Ok t ∧ o = [t])
  ∨ (¬ is_selected max_digits cp ∧ o = []).
Proof.
  unfold selected_text, is_selected, passage_text. intros H.
  apply bind_Ok_inv in H as (flag & Hflag & H).
  apply bind_Ok_inv in H as (z & Hz & H).
  destruct (z =? 0)%Z eqn:E; simpl in H.
  - right. injection H as <-. split; [|done].
    intros (flag' & z' & Hflag' & Hz' & Hne).
    rewrite Hflag in Hflag'. injection Hflag' as <-.
    rewrite Hz in Hz'. injection Hz' as <-. lia.
  - left. apply bind_Ok_inv in H as (t & Ht & [= <-]).
    split; [exists flag, z; split_and!; [done..|lia] | by exists t].
Qed.

Lemma selected_none cps sel :
  concatM (selected_text max_digits) cps = Ok sel →
  Forall (λ c, ¬ is_selected max_digits c) cps → sel = [].
Proof.
  revert sel. induction cps as [|cp cps IH]; intros sel H Hall; simpl in H.
  - by injection H.
  - apply bind_Ok_inv in H as (o & Ho & H).
    apply bind_Ok_inv in H as (r & Hr & [= <-]).
    inversion Hall as [|? ? Hcp Hcps]; subst.
    apply selected_text_Ok in Ho as [[Hsel _]|[_ ->]]; [done|].
    simpl. by apply IH.
Qed.

Lemma selected_first before cp after sel :
  concatM (selected_text max_digits) (before ++ cp :: after) = Ok sel →
  Forall (λ c, ¬ is_selected max_digits c) before →
  is_selected max_digits cp →
  ∃ t, passage_text cp = Ok t ∧ head sel = Some t.
Proof.
  revert sel. induction before as [|c before IH]; intros sel H Hall Hcp;
    simpl in H.
  - apply bind_Ok_inv in H as (o & Ho & H).
    apply bind_Ok_inv in H as (r & Hr & [= <-]).
    apply selected_text_Ok in Ho as [(_ & t & Ht & ->)|[Hn _]]; [|done].
    by exists t.
  - apply bind_Ok_inv in H as (o & Ho & H).
    apply bind_Ok_inv in H as (r & Hr & [= <-]).
    inversion Hall as [|? ? Hc Hbefore]; subst.
    apply selected_text_Ok in Ho as [[Hsel _]|[_ ->]]; [done|].
    simpl. by apply IH.
Qed.

Lemma selected_among_texts cps sel texts :
  concatM (selected_text max_digits) cps = Ok sel →
  mapM passage_text cps = Ok texts →
  ∀ t, t ∈ sel → t ∈ texts.
Proof.
  revert sel texts.
  induction cps as [|cp cps IH]; intros sel texts Hsel Htexts t Ht;
    simpl in Hsel, Htexts.
  - injection Hsel as <-. by apply elem_of_nil in Ht.
  - apply bind_Ok_inv in Hsel as (o & Ho & Hsel).
    apply bind_Ok_inv in Hsel as (r & Hr & [= <-]).
    apply bind_Ok_inv in Htexts as (x & Hx & Htexts).
    apply bind_Ok_inv in Htexts as (xs & Hxs & [= <-]).
    apply elem_of_app in Ht as [Ht|Ht].
    + apply selected_text_Ok in Ho as [(_ & t' & Ht' & ->)|[_ ->]].
      * apply list_elem_of_singleton in Ht as ->.
        rewrite Hx in Ht'. injection Ht' as ->. apply list_elem_of_here.
      * by apply elem_of_nil in Ht.
    + apply list_elem_of_further. by apply (IH r xs).
Qed.

Lemma get_dialog_examples_elem self split exs f :
  get_dialog_examples max_digits le self split = Ok exs → f ∈ exs →
  ∃ raw i, make_example max_digits le raw i = Ok f.
Proof.
  unfold get_dialog_examples. intros H Hf.
  apply bind_Ok_inv in H as (source & _ & H).
  apply bind_Ok_inv in H as (raw & _ & H).
  apply bind_Ok_inv in H as (answers & _ & H).
  apply bind_Ok_inv in H as (idxs & _ & H).
  rewrite for_each_mapM in H.
  apply bind_Ok_inv in H as (ys & Hys & [= <-]).
  apply mapM_Ok_Forall2 in Hys. simpl in Hf.
  exists raw. clear -Hys Hf.
  induction Hys as [|i y idxs ys Hy _ IH]; [by apply elem_of_nil in Hf|].
  apply elem_of_cons in Hf as [->|Hf]; [by exists i | by apply IH].
Qed.

Lemma make_example_id raw i f :
  make_example max_digits le raw i = Ok f → example_id (data f) = i.
Proof.
  unfold make_example. intros H.
  repeat (apply bind_Ok_inv in H as (? & _ & H)).
  by injection H as <-.
Qed.

Lemma mapM_make_example_ids raw idxs exs :
  mapM (make_example max_digits le raw) idxs = Ok exs →
  map (λ f, example_id (data f)) exs = idxs.
Proof.
  rewrite mapM_Ok_Forall2. induction 1 as [|i f idxs exs Hf _ IH]; [done|].
  simpl. by rewrite (make_example_id _ _ _ Hf), IH.
Qed.

Lemma get_dialog_examples_from_file self split source raw answers idxs :
  dataset_split_print !! split = Some source →
  data_dir self !! (source +:+ "_v2.1.json") = Some raw →
  raw !! "answers" = Some answers →
  select_idxs split (size answers) = Ok idxs →
  get_dialog_examples max_digits le self split
  = mapM (make_example max_digits le raw) idxs.
Proof.
  intros Hsrc Hfile Hans Hidxs. unfold get_dialog_examples, getkey, open_json.
  rewrite Hsrc. simpl. rewrite Hfile. simpl. rewrite Hans. simpl.
  rewrite Hidxs. simpl. rewrite for_each_mapM.
  by destruct (mapM _ _).
Qed.

Lemma get_dialog_examples_same_file self self' split source :
  dataset_split_print !! split = Some source →
  data_dir self' !! (source +:+ "_v2.1.json")
    = data_dir self !! (source +:+ "_v2.1.json") →
  get_dialog_examples max_digits le self' split
  = get_dialog_examples max_digits le self split.
Proof.
  intros Hsrc Heq. unfold get_dialog_examples, getkey, open_json.
  rewrite Hsrc. cbn [bind]. by rewrite Heq.
Qed.

(** C1. For a train file whose [answers] mapping has [n] entries,
    [get_dialog_examples("train")] builds the examples of exactly the indices
    [i < n] with [i % 10 != 0] and [get_dialog_examples("dev")] those of
    exactly the indices with [i % 10 == 0], in increasing order; the two index
    sets are disjoint, their union is the range [0, n), their sizes sum to [n],
    and the dev set consists of the [ceil(n/10)] indices 0, 10, 20, ... *)
Theorem train_dev_partition self raw answers :
  data_dir self !! "train_v2.1.json" = Some raw →
  raw !! "answers" = Some answers →
  get_dialog_examples max_digits le self "train"
    = mapM (make_example max_digits le raw) (train_idxs (size answers))
  ∧ get_dialog_examples max_digits le self "dev"
    = mapM (make_example max_digits le raw) (dev_idxs (size answers))
  ∧ (∀ exs, get_dialog_examples max_digits le self "train" = Ok exs →
       map (λ f, example_id (data f)) exs = train_idxs (size answers))
  ∧ (∀ exs, get_dialog_examples max_digits le self "dev" = Ok exs →
       map (λ f, example_id (data f)) exs = dev_idxs (size answers))
  ∧ (∀ i, i ∈ train_idxs (size answers) ↔ i < size answers ∧ i mod 10 ≠ 0)
  ∧ (∀ i, i ∈ dev_idxs (size answers) ↔ i < size answers ∧ i mod 10 = 0)
  ∧ NoDup (train_idxs (size answers)) ∧ NoDup (dev_idxs (size answers))
  ∧ (∀ i, ¬ (i ∈ train_idxs (size answers) ∧ i ∈ dev_idxs (size answers)))
  ∧ (∀ i, i < size answers
          ↔ i ∈ train_idxs (size answers) ∨ i ∈ dev_idxs (size answers))
  ∧ length (train_idxs (size answers)) + length (dev_idxs (size answers))
    = size answers
  ∧ length (dev_idxs (size answers)) = (size answers + 9) / 10
  ∧ dev_idxs (size answers)
    = map (λ k, 10 * k) (seq 0 ((size answers + 9) / 10)).
Proof.
  intros Hfile Hans. set (n := size answers).
  assert (get_dialog_examples max_digits le self "train"
          = mapM (make_example max_digits le raw) (train_idxs n)) as Htrain.
  { by apply (get_dialog_examples_from_file self "train" "train" raw answers). }
  assert (get_dialog_examples max_digits le self "dev"
          = mapM (make_example max_digits le raw) (dev_idxs n)) as Hdev.
  { by apply (get_dialog_examples_from_file self "dev" "train" raw answers). }
  assert (∀ i, i ∈ train_idxs n ↔ i < n ∧ i mod 10 ≠ 0) as Hin_train.
  { intros i. rewrite train_idxs_filter, list_elem_of_filter, elem_of_seq.
    intuition lia. }
  assert (∀ i, i ∈ dev_idxs n ↔ i < n ∧ i mod 10 = 0) as Hin_dev.
  { intros i. rewrite dev_idxs_filter, list_elem_of_filter, elem_of_seq.
    intuition lia. }
  split_and!; try done.
  - intros exs. rewrite Htrain. apply mapM_make_example_ids.
  - intros exs. rewrite Hdev. apply mapM_make_example_ids.
  - rewrite train_idxs_filter. apply NoDup_filter, NoDup_seq.
  - rewrite dev_idxs_filter. apply NoDup_filter, NoDup_seq.
  - intros i. rewrite Hin_train, Hin_dev. intuition.
  - intros i. rewrite Hin_train, Hin_dev.
    destruct (decide (i mod 10 = 0)); intuition.
  - rewrite train_idxs_filter, dev_idxs_filter.
    pose proof (filter_app_complement (λ i, i mod 10 = 0) (seq 0 n)) as Hp.
    apply Permutation_length in Hp.
    rewrite length_app, length_seq in Hp. lia.
  - rewrite dev_idxs_multiples, length_map, length_seq. done.
  - apply dev_idxs_multiples.
Qed.

(** C6. [get_dialog_examples("test")] reads the file of the "dev" source,
    while "train" and "dev" both read the file of the "train" source; the
    test split builds one example per index of [0, n), [n] the size of the
    [answers] mapping of that file, in order and with no index left out: it
    returns [n] examples whenever each record can be built. *)
Theorem test_split_full self raw answers :
  data_dir self !! "dev_v2.1.json" = Some raw →
  raw !! "answers" = Some answers →
  get_dialog_examples max_digits le self "test"
    = mapM (make_example max_digits le raw) (seq 0 (size answers))
  ∧ (∀ exs, get_dialog_examples max_digits le self "test" = Ok exs →
       length exs = size answers
       ∧ map (λ f, example_id (data f)) exs = seq 0 (size answers))
  ∧ ((∀ i, i < size answers → is_Ok (make_example max_digits le raw i)) →
       is_Ok (get_dialog_examples max_digits le self "test"))
  ∧ (∀ self', data_dir self' !! "dev_v2.1.json" = Some raw →
       get_dialog_examples max_digits le self' "test"
       = get_dialog_examples max_digits le self "test")
  ∧ (∀ self', data_dir self' !! "train_v2.1.json"
                = data_dir self !! "train_v2.1.json" →
       get_dialog_examples max_digits le self' "train"
       = get_dialog_examples max_digits le self "train"
       ∧ get_dialog_examples max_digits le self' "dev"
         = get_dialog_examples max_digits le self "dev").
Proof.
  intros Hfile Hans.
  assert (∀ s, data_dir s !! "dev_v2.1.json" = Some raw →
            get_dialog_examples max_digits le s "test"
            = mapM (make_example max_digits le raw) (seq 0 (size answers))) as Htest.
  { intros s Hs.
    by apply (get_dialog_examples_from_file s "test" "dev" raw answers). }
  split_and!.
  - by apply Htest.
  - intros exs. rewrite (Htest self Hfile). intros Hexs.
    pose proof (mapM_make_example_ids _ _ _ Hexs) as Hids.
    split; [|done].
    by rewrite <- (length_map (λ f, example_id (data f)) exs), Hids, length_seq.
  - intros Hrec. rewrite (Htest self Hfile). apply mapM_is_Ok.
    intros i Hi. apply Hrec. apply elem_of_seq in Hi. lia.
  - intros self' Hfile'. by rewrite (Htest self'), (Htest self).
  - intros self' Heq.
    split; by apply (get_dialog_examples_same_file self self' _ "train").
Qed.

(** C7. For every record that [make_example] normalises, [labels.passage] is
    the [passage_text] of the first candidate passage whose [is_selected]
    flag is a non-zero integer, it is [None] when no candidate is flagged,
    and [possible_labels.passage] lists the [passage_text] of every
    candidate, in order. *)
Theorem gold_passage raw i f :
  make_example max_digits le raw i = Ok f →
  ∃ passages cand cps texts,
    raw !! "passages" = Some passages ∧ passages !! str i = Some cand
    ∧ iter cand = Ok cps
    ∧ (∀ before cp after, cps = before ++ cp :: after →
         Forall (λ c, ¬ is_selected max_digits c) before →
         is_selected max_digits cp →
         ∃ t, item cp "passage_text" = Ok t
              ∧ labels (data f) !! "passage" = Some t)
    ∧ (Forall (λ c, ¬ is_selected max_digits c) cps →
         labels (data f) !! "passage" = Some PNone)
    ∧ possible_labels (data f) !! "passage" = Some (PList texts)
    ∧ Forall2 (λ cp t, item cp "passage_text" = Ok t) cps texts.
Proof.
  intros H.
  destruct (make_example_inv _ _ _ H)
    as (queries & utt & answers & a & answer & wfas & w & coll & fluent & qts
        & qt & passages & cand & cps & sel & texts & Hq & Hu & Has & Ha
        & Hanswer & Hws & Hw & Hcoll & Hfluent & Hqts & Hqt & Hps & Hcand
        & Hcps & Hsel & Htexts & Hutt & Lserv & Lresp & Lflu & Lpass & Pserv
        & Ppass).
  exists passages, cand, cps, texts. split_and!; try done.
  - intros before cp after -> Hbefore Hcp.
    destruct (selected_first _ _ _ _ Hsel Hbefore Hcp) as (t & Ht & Hhead).
    exists t. split; [done|]. by rewrite Lpass, Hhead.
  - intros Hnone. by rewrite Lpass, (selected_none _ _ Hsel Hnone).
  - by apply mapM_Ok_Forall2.
Qed.

(** C8. For every record that [make_example] normalises, [labels.response]
    is the first element of the raw [answers] value when that value is a
    list and the raw value itself otherwise; [labels.fluent_response] is the
    first element of the collection obtained from the raw
    [wellFormedAnswers] value (the value itself when it is a list, the
    result of [literal_eval] otherwise) and [None] when that collection is
    empty.  When [literal_eval] raises on a record whose query and answer
    were read, [make_example] raises the same exception. *)
Theorem response_and_fluent_response raw i :
  (∀ f, make_example max_digits le raw i = Ok f →
     ∃ answers a wfas w coll,
       raw !! "answers" = Some answers ∧ answers !! str i = Some a
       ∧ (∀ l, a = PList l →
            ∃ x rest, l = x :: rest ∧ labels (data f) !! "response" = Some x)
       ∧ (is_list a = false → labels (data f) !! "response" = Some a)
       ∧ raw !! "wellFormedAnswers" = Some wfas ∧ wfas !! str i = Some w
       ∧ (if is_list w then coll = w else literal_eval le w = Ok coll)
       ∧ (truthy coll = false →
            labels (data f) !! "fluent_response" = Some PNone)
       ∧ (truthy coll = true →
            ∃ x, item0 coll = Ok x
                 ∧ labels (data f) !! "fluent_response" = Some x))
  ∧ (∀ queries utt answers a answer wfas w e,
       raw !! "query" = Some queries → queries !! str i = Some utt →
       raw !! "answers" = Some answers → answers !! str i = Some a →
       (if is_list a then item0 a else Ok a) = Ok answer →
       raw !! "wellFormedAnswers" = Some wfas → wfas !! str i = Some w →
       is_list w = false → literal_eval le w = Raise e →
       make_example max_digits le raw i = Raise e).
Proof.
  split.
  - intros f H.
    destruct (make_example_inv _ _ _ H)
      as (queries & utt & answers & a & answer & wfas & w & coll & fluent & qts
          & qt & passages & cand & cps & sel & texts & Hq & Hu & Has & Ha
          & Hanswer & Hws & Hw & Hcoll & Hfluent & Hqts & Hqt & Hps & Hcand
          & Hcps & Hsel & Htexts & Hutt & Lserv & Lresp & Lflu & Lpass & Pserv
          & Ppass).
    exists answers, a, wfas, w, coll. split_and!; try done.
    + intros l ->. simpl in Hanswer. destruct l as [|x rest]; [done|].
      injection Hanswer as ->. by exists answer, rest.
    + intros Hl. rewrite Hl in Hanswer. by injection Hanswer as ->.
    + destruct (is_list w); [by injection Hcoll|done].
    + intros Hc. rewrite Hc in Hfluent. by injection Hfluent as <-.
    + intros Hc. rewrite Hc in Hfluent. by exists fluent.
  - intros queries utt answers a answer wfas w e Hq Hu Has Ha Hanswer Hws Hw
      Hl He.
    unfold make_example, getkey.
    rewrite Hq. cbn [bind]. rewrite Hu. cbn [bind].
    rewrite Has. cbn [bind]. rewrite Ha. cbn [bind].
    rewrite Hanswer. cbn [bind]. rewrite Hws. cbn [bind].
    rewrite Hw. cbn [bind]. rewrite Hl, He. done.
Qed.

(** C10. In every example returned by [get_dialog_examples], for any split,
    a [labels.passage] that is not [None] is an element of
    [possible_labels.passage], and [possible_labels.service] is the list
    of the five category names. *)
Theorem passage_among_possible self split exs f :
  get_dialog_examples max_digits le self split = Ok exs → f ∈ exs →
  (∀ p, labels (data f) !! "passage" = Some p → p ≠ PNone →
     ∃ texts, possible_labels (data f) !! "passage" = Some (PList texts)
              ∧ p ∈ texts)
  ∧ possible_labels (data f) !! "service"
    = Some (PList [PStr "LOCATION"; PStr "NUMERIC"; PStr "PERSON";
                   PStr "DESCRIPTION"; PStr "ENTITY"]).
Proof.
  intros Hexs Hf.
  destruct (get_dialog_examples_elem _ _ _ _ Hexs Hf) as (raw & i & H).
  destruct (make_example_inv _ _ _ H)
    as (queries & utt & answers & a & answer & wfas & w & coll & fluent & qts
        & qt & passages & cand & cps & sel & texts & Hq & Hu & Has & Ha
        & Hanswer & Hws & Hw & Hcoll & Hfluent & Hqts & Hqt & Hps & Hcand
        & Hcps & Hsel & Htexts & Hutt & Lserv & Lresp & Lflu & Lpass & Pserv
        & Ppass).
  split; [|done].
  intros p Hp Hne. rewrite Lpass in Hp. injection Hp as <-.
  exists texts. split; [done|].
  destruct sel as [|t sel]; [done|]. simpl.
  apply (selected_among_texts _ _ _ Hsel Htexts). apply list_elem_of_here.
Qed.

End WithParser.

(** The partition on the sample processor, whose train file has 12 records. *)
Lemma train_dev_partition_sample :
  map (λ f, example_id (data f))
    <$> (match get_dialog_examples Sample.max_str_digits Sample.literal_eval_str
        Sample.processor "dev"
         with Ok exs => Some exs | Raise _ => None end)
  = Some [0; 10]
  ∧ length (train_idxs 12) + length (dev_idxs 12) = 12.
Proof.
  destruct (train_dev_partition Sample.max_str_digits Sample.literal_eval_str
      Sample.processor
              Sample.train_file (Sample.column 12 Sample.raw_answer))
    as (_ & _ & _ & _ & _ & _ & _ & _ & _ & _ & Hsum & _);
    [reflexivity | reflexivity |].
  split; [vm_compute; reflexivity | exact Hsum].
Defined.

(** The test split on the sample processor, whose dev file has 3 records. *)
Lemma test_split_full_sample :
  is_Ok (get_dialog_examples Sample.max_str_digits Sample.literal_eval_str
      Sample.processor "test").
Proof.
  destruct (test_split_full Sample.max_str_digits Sample.literal_eval_str
      Sample.processor
              Sample.dev_file (Sample.column 3 Sample.raw_answer))
    as (_ & _ & Hok & _); [reflexivity | reflexivity |].
  apply Hok. intros i Hi.
  destruct i as [|[|[|i]]]; [by vm_compute ..|]; vm_compute in Hi; lia.
Defined.

Local Ltac not_selected :=
  intros (flag & z & Hflag & Hz & Hne);
  vm_compute in Hflag; injection Hflag as <-;
  vm_compute in Hz; injection Hz as <-; done.

(** Record 3 of the sample train file: only the third candidate is flagged.
    Record 0: no candidate is flagged. *)
Lemma gold_passage_sample :
  (∃ f, make_example Sample.max_str_digits Sample.literal_eval_str
      Sample.train_file 3 = Ok f
        ∧ labels (data f) !! "passage" = Some (PStr "third passage of 3"))
  ∧ (∃ f, make_example Sample.max_str_digits Sample.literal_eval_str
      Sample.train_file 0 = Ok f
          ∧ labels (data f) !! "passage" = Some PNone).
Proof.
  split.
  - assert (is_Ok (make_example Sample.max_str_digits Sample.literal_eval_str
      Sample.train_file 3))
      as Hok by (by vm_compute).
    destruct (make_example Sample.max_str_digits Sample.literal_eval_str
        Sample.train_file 3)
      as [f|e] eqn:E; [|done].
    exists f. split; [done|].
    destruct (gold_passage _ _ _ _ _ E)
      as (passages & cand & cps & texts & Hps & Hcand & Hcps & Hfirst & _).
    assert (Sample.train_file !! "passages" ≫= (λ ps, ps !! str 3)
            = Some (Sample.raw_passages 3)) as Hc by (by vm_compute).
    rewrite Hps in Hc. cbn [mbind option_bind] in Hc.
    rewrite Hcand in Hc. injection Hc as ->.
    injection Hcps as <-.
    destruct (Hfirst
                [Sample.candidate 0 "first passage of 3";
                 Sample.candidate 0 "second passage of 3"]
                (Sample.candidate 1 "third passage of 3") [])
      as (t & Ht & Hlabel).
    + reflexivity.
    + repeat constructor; not_selected.
    + exists (PInt 1), 1%Z. by vm_compute.
    + vm_compute in Ht. by injection Ht as <-.
  - assert (is_Ok (make_example Sample.max_str_digits Sample.literal_eval_str
      Sample.train_file 0))
      as Hok by (by vm_compute).
    destruct (make_example Sample.max_str_digits Sample.literal_eval_str
        Sample.train_file 0)
      as [f|e] eqn:E; [|done].
    exists f. split; [done|].
    destruct (gold_passage _ _ _ _ _ E)
      as (passages & cand & cps & texts & Hps & Hcand & Hcps & _ & Hnone & _).
    assert (Sample.train_file !! "passages" ≫= (λ ps, ps !! str 0)
            = Some (Sample.raw_passages 0)) as Hc by (by vm_compute).
    rewrite Hps in Hc. cbn [mbind option_bind] in Hc.
    rewrite Hcand in Hc. injection Hc as ->.
    injection Hcps as <-.
    apply Hnone. repeat constructor; not_selected.
Defined.

(** A selection flag that [int] refuses aborts the record: the separator
    U+001F before the digit is not skipped. *)
Lemma separator_flag_ValueError :
  make_example Sample.max_str_digits Sample.literal_eval_str
    Sample.separator_flag_file 0 = Raise ValueError.
Proof. vm_compute. reflexivity. Qed.

(** Record 4 of the sample train file has a list of answers and a list of
    well-formed answers; the records of [null_answers_file] have a
    well-formed answer that [literal_eval] rejects. *)
Lemma response_and_fluent_response_sample :
  (∃ f, make_example Sample.max_str_digits Sample.literal_eval_str
      Sample.train_file 4 = Ok f
        ∧ labels (data f) !! "response" = Some (PStr "answer 4"))
  ∧ make_example Sample.max_str_digits Sample.literal_eval_str
      Sample.null_answers_file 0
    = Raise ValueError.
Proof.
  split.
  - assert (is_Ok (make_example Sample.max_str_digits Sample.literal_eval_str
      Sample.train_file 4))
      as Hex by (by vm_compute).
    destruct (make_example Sample.max_str_digits Sample.literal_eval_str
        Sample.train_file 4)
      as [f|e] eqn:E; [|done].
    exists f. split; [done|].
    destruct (response_and_fluent_response Sample.max_str_digits Sample.literal_eval_str
                Sample.train_file 4) as [Hok _].
    destruct (Hok f E) as (answers & a & wfas & w & coll & Has & Ha & Hlist & _).
    assert (Sample.train_file !! "answers" ≫= (λ m, m !! str 4)
            = Some (PList [PStr "answer 4"; PStr "another answer"])) as Hc
      by (by vm_compute).
    rewrite Has in Hc. cbn [mbind option_bind] in Hc.
    rewrite Ha in Hc. injection Hc as ->.
    destruct (Hlist _ eq_refl) as (x & rest & Hl & Hresp).
    by injection Hl as <- <-.
  - destruct (response_and_fluent_response Sample.max_str_digits Sample.literal_eval_str
                Sample.null_answers_file 0) as [_ Hraise].
    by apply (Hraise (Sample.column 3 (λ i, PStr ("query " +:+ str i)))
                (PStr "query 0") (Sample.column 3 Sample.raw_answer)
                (Sample.raw_answer 0) (PStr "answer 0")
                (Sample.column 3 (λ _, PNone)) PNone ValueError).
Defined.

(** The invariant on the examples of the sample test split. *)
Lemma passage_among_possible_sample :
  ∃ exs f,
    get_dialog_examples Sample.max_str_digits Sample.literal_eval_str
        Sample.processor "test" = Ok exs
    ∧ f ∈ exs
    ∧ possible_labels (data f) !! "service"
      = Some (PList [PStr "LOCATION"; PStr "NUMERIC"; PStr "PERSON";
                     PStr "DESCRIPTION"; PStr "ENTITY"]).
Proof.
  assert (match get_dialog_examples
      Sample.max_str_digits Sample.literal_eval_str Sample.processor
                  "test" with Ok exs => length exs | Raise _ => 0 end = 3)
    as Hlen by (by vm_compute).
  destruct (get_dialog_examples Sample.max_str_digits Sample.literal_eval_str
      Sample.processor "test")
    as [exs|e] eqn:E; [|done].
  assert (∃ f, f ∈ exs) as [f Hf].
  { destruct exs as [|f exs]; [done|]. exists f. apply list_elem_of_here. }
  exists exs, f. split_and!; [done..|].
  apply (passage_among_possible Sample.max_str_digits Sample.literal_eval_str
      Sample.processor
           "test" exs f E Hf).
Defined.

End ProcessorFacts.

(** ** The generation dataset *)

Module DatasetFacts.
Import Py MSMarco S2S.

(** *** White space *)

Lemma blank_nil : blank EmptyString.
Proof. constructor. Qed.

Lemma blank_cons c s : blank (String c s) ↔ isspace c = true ∧ blank s.
Proof.
  unfold blank. simpl.
  apply (Forall_cons (λ c, isspace c = true) c (list_ascii_of_string s)).
Qed.

Lemma lstrip_blank s : blank (lstrip s) ↔ blank s.
Proof.
  induction s as [|c s IH]; simpl; [done|].
  destruct (isspace c) eqn:E; [|done].
  rewrite blank_cons, IH. tauto.
Qed.

Lemma rstrip_empty s : rstrip s = EmptyString ↔ blank s.
Proof.
  induction s as [|c s IH]; simpl.
  - split; [intros _; apply blank_nil | done].
  - rewrite blank_cons, <- IH.
    destruct (rstrip s) as [|c' r]; destruct (isspace c); split;
      (done || (intros []; done)).
Qed.

Lemma strip_empty s : strip s = EmptyString ↔ blank s.
Proof. unfold strip. by rewrite rstrip_empty, lstrip_blank. Qed.

(** *** Sequences *)

Lemma getitem_nat {A : Type} (l : list A) (i : nat) :
  getitem l (Z.of_nat i)
  = match l !! i with Some x => Ok x | None => Raise IndexError end.
Proof.
  unfold getitem.
  assert ((Z.of_nat i <? 0)%Z = false) as E by (apply Z.ltb_ge; lia).
  rewrite !E. by rewrite Nat2Z.id.
Qed.

(** *** The test on one field *)

Lemma field_empty_false lbls field :
  field_empty lbls field = Ok false ↔ field_present lbls field.
Proof.
  unfold field_empty, field_present, getkey. split.
  - destruct (lbls !! field) as [v|]; simpl; [|done].
    destruct v as [| | |s| | |]; simpl.
    4: { destruct (String.eqb_spec s EmptyString) as [->|Hs]; simpl; [done|].
         destruct (String.eqb_spec (strip s) EmptyString) as [Hb|Hb]; simpl;
           [done|]. intros _. exists s. split_and!; [done..|].
         by rewrite <- strip_empty. }
    all: intros H; repeat case_match; discriminate.
  - intros (s & -> & Hs & Hb). simpl.
    destruct (String.eqb_spec s EmptyString) as [->|_]; simpl; [done|].
    destruct (String.eqb_spec (strip s) EmptyString) as [Hb'|_]; simpl;
      [|done]. by apply strip_empty in Hb'.
Qed.

Lemma field_empty_true lbls field :
  field_empty lbls field = Ok true ↔
  field_lacking lbls field ∧ is_Ok (field_empty lbls field).
Proof.
  unfold field_empty, field_lacking, getkey. split.
  - intros H. split; [|by rewrite H].
    destruct (lbls !! field) as [v|]; simpl in H; [|done].
    exists v. split; [done|].
    destruct (truthy v) eqn:Ht; simpl in H; [|by left].
    right. destruct v as [| | |s| | |]; simpl in H; try done.
    exists s. split; [done|]. apply strip_empty.
    destruct (String.eqb_spec (strip s) EmptyString); simpl in H; done.
  - intros [(v & -> & Hv) Hok]. simpl in *.
    destruct Hv as [->|(s & -> & Hb)]; simpl; [done|].
    destruct (String.eqb_spec s EmptyString) as [->|_]; simpl; [done|].
    apply strip_empty in Hb. by rewrite Hb.
Qed.

Lemma field_empty_typed lbls field v :
  lbls !! field = Some v → v = PNone ∨ (∃ s, v = PStr s) →
  is_Ok (field_empty lbls field).
Proof.
  unfold field_empty, getkey. intros -> [->|[s ->]]; simpl; [done|].
  by destruct (negb (String.eqb s EmptyString)).
Qed.

Lemma lacking_not_present lbls field :
  field_lacking lbls field → ¬ field_present lbls field.
Proof.
  intros (v & Hv & Hlack) (s & Hs & Hne & Hb).
  rewrite Hv in Hs. injection Hs as ->.
  destruct Hlack as [Ht|(s' & [= <-] & Hb')]; [|done].
  simpl in Ht. by destruct (String.eqb_spec s EmptyString).
Qed.

(** *** The inner loop *)

Lemma flag_loop lbls fields flag b :
  for_each (λ flag field,
      empty <- field_empty lbls field ;;
      Ok (if empty then false else flag)) fields flag = Ok b →
  (b = true ↔ flag = true ∧ Forall (field_present lbls) fields)
  ∧ Forall (λ field, field_present lbls field ∨ field_lacking lbls field) fields.
Proof.
  revert flag. induction fields as [|field fields IH]; intros flag H; simpl in H.
  - injection H as <-. split; [|constructor].
    split; [by intros -> | by intros []].
  - apply bind_Ok_inv in H as (flag' & Hbody & H).
    apply bind_Ok_inv in Hbody as (empty & Hempty & [= <-]).
    destruct (IH _ H) as [IHb IHall]. destruct empty.
    + apply field_empty_true in Hempty as [Hlack _].
      split; [|constructor; [by right | done]].
      rewrite IHb. split; [by intros []|].
      intros [_ Hall]. inversion Hall as [|? ? Hp _]; subst.
      by destruct (lacking_not_present _ _ Hlack).
    + apply field_empty_false in Hempty.
      split; [|constructor; [by left | done]].
      rewrite IHb, Forall_cons. tauto.
Qed.

Lemma flag_loop_total lbls fields flag :
  Forall (λ field, ∃ v, lbls !! field = Some v
                        ∧ (v = PNone ∨ ∃ s, v = PStr s)) fields →
  is_Ok (for_each (λ flag field,
      empty <- field_empty lbls field ;;
      Ok (if empty then false else flag)) fields flag).
Proof.
  intros Hall. revert flag.
  induction Hall as [|field fields (v & Hv & Hty) _ IH]; intros flag; simpl;
    [done|].
  pose proof (field_empty_typed _ _ _ Hv Hty) as Hok.
  destruct (field_empty lbls field) as [empty|]; simpl; [apply IH | done].
Qed.

Lemma all_fields_non_empty_Ok self lbls b :
  all_fields_non_empty self lbls = Ok b →
  (b = true ↔ Forall (field_present lbls) (all_fields self))
  ∧ Forall (λ field, field_present lbls field ∨ field_lacking lbls field)
           (all_fields self).
Proof.
  intros H. destruct (flag_loop _ _ _ _ H) as [Hb Hall].
  split; [|done]. rewrite Hb. tauto.
Qed.

(** *** The outer loop *)

Lemma remove_invalid_loop self seen todo valid st :
  for_each (remove_invalid_step self)
    (seq (length seen) (length todo)) (seen ++ todo, valid) = Ok st →
  st = (seen ++ (inject <$> todo),
        valid ++ valid_from self (length seen) todo)
  ∧ Forall (λ f, Forall (λ field,
               field_present (labels (data (inject f))) field
               ∨ field_lacking (labels (data (inject f))) field)
             (all_fields self)) todo.
Proof.
  revert seen valid st.
  induction todo as [|f todo IH]; intros seen valid st H; simpl in H.
  - injection H as <-. by rewrite !app_nil_r.
  - apply bind_Ok_inv in H as ([feats' valid'] & Hstep & H).
    unfold remove_invalid_step in Hstep.
    rewrite getitem_nat, list_lookup_middle in Hstep by done. simpl in Hstep.
    apply bind_Ok_inv in Hstep as (ok & Hok & [= <- <-]).
    apply all_fields_non_empty_Ok in Hok as [Hok Hall].
    rewrite insert_app_r_alt, Nat.sub_diag in H by done. simpl in H.
    rewrite (cons_middle (inject f)), app_assoc in H.
    replace (S (length seen)) with (length (seen ++ [inject f])) in H
      by (rewrite length_app; simpl; lia).
    apply IH in H as [-> Hrest]. split; [|by constructor].
    rewrite length_app, <- !app_assoc. simpl.
    replace (length seen + 1) with (S (length seen)) by lia.
    destruct ok; destruct (decide (complete self (inject f))) as [Hc|Hc];
      simpl; rewrite <- ?app_assoc; try done.
    + destruct Hc. by apply Hok.
    + apply Hok in Hc. done.
Qed.

Lemma collect_valid self seen todo acc :
  for_each (λ acc i,
      f <- getitem (seen ++ (inject <$> todo)) (Z.of_nat i) ;; Ok (acc ++ [f]))
    (valid_from self (length seen) todo) acc
  = Ok (acc ++ filter (complete self) (inject <$> todo)).
Proof.
  revert seen acc. induction todo as [|f todo IH]; intros seen acc; simpl.
  - by rewrite app_nil_r.
  - assert (∀ acc', for_each (λ acc i,
        f0 <- getitem (seen ++ inject f :: (inject <$> todo)) (Z.of_nat i) ;;
        Ok (acc ++ [f0])) (valid_from self (S (length seen)) todo) acc'
      = Ok (acc' ++ filter (complete self) (inject <$> todo))) as Hrest.
    { intros acc'. specialize (IH (seen ++ [inject f]) acc').
      rewrite length_app, <- app_assoc in IH. simpl in IH.
      by replace (length seen + 1) with (S (length seen)) in IH by lia. }
    destruct (decide (complete self (inject f))) as [Hc|Hc]; simpl.
    + rewrite getitem_nat, list_lookup_middle by done. simpl.
      rewrite Hrest, filter_cons_True by done. by rewrite <- app_assoc.
    + by rewrite Hrest, filter_cons_False.
Qed.

Lemma remove_invalid_samples_Ok self feats out :
  remove_invalid_samples self feats = Ok out →
  out = filter (complete self) (inject <$> feats)
  ∧ Forall (λ f, Forall (λ field,
               field_present (labels (data (inject f))) field
               ∨ field_lacking (labels (data (inject f))) field)
             (all_fields self)) feats.
Proof.
  unfold remove_invalid_samples. intros H.
  apply bind_Ok_inv in H as (st & Hloop & H).
  apply (remove_invalid_loop self [] feats []) in Hloop as [-> Hall].
  pose proof (collect_valid self [] feats []) as Hc.
  cbn [fst snd app length] in H, Hc. rewrite Hc in H.
  by injection H as <-.
Qed.

Lemma remove_invalid_loop_total self seen todo valid :
  Forall (λ f, well_typed self (inject f)) todo →
  is_Ok (for_each (remove_invalid_step self)
           (seq (length seen) (length todo)) (seen ++ todo, valid)).
Proof.
  intros Hall. revert seen valid.
  induction Hall as [|f todo Hf _ IH]; intros seen valid; simpl; [done|].
  rewrite getitem_nat, list_lookup_middle by done. simpl.
  pose proof (flag_loop_total _ _ true Hf) as Hok.
  unfold all_fields_non_empty.
  destruct (for_each _ (all_fields self) true) as [ok|]; simpl; [|done].
  rewrite insert_app_r_alt, Nat.sub_diag by done. simpl.
  rewrite (cons_middle (inject f)), app_assoc.
  replace (S (length seen)) with (length (seen ++ [inject f]))
    by (rewrite length_app; simpl; lia).
  apply IH.
Qed.

Lemma remove_invalid_samples_total self feats :
  Forall (λ f, well_typed self (inject f)) feats →
  is_Ok (remove_invalid_samples self feats).
Proof.
  intros Hall. unfold remove_invalid_samples.
  pose proof (remove_invalid_loop_total self [] feats [] Hall) as Hok.
  simpl in Hok.
  destruct (for_each (remove_invalid_step self) _ _) as [st|] eqn:E; [|done].
  apply (remove_invalid_loop self [] feats []) in E as [-> _].
  pose proof (collect_valid self [] feats []) as Hc.
  cbn [bind fst snd app length] in Hc |- *. by rewrite Hc.
Qed.

Lemma inject_idem f : inject (inject f) = inject f.
Proof.
  destruct f as [[u i l p]]. unfold inject, set_utterance. simpl.
  by rewrite insert_insert_eq.
Qed.

(** C2. When [remove_invalid_samples] returns, it returns, in order, the
    examples (with [labels.utterance] set from the utterance) in which every
    field name obtained by splitting [input_field] and [output_field] on
    '+' holds a string that is neither empty nor made of white space only;
    it does return when each of these fields holds [None] or a string. *)
Theorem filter_law self feats :
  (∀ out, remove_invalid_samples self feats = Ok out →
     out = filter (complete self) (inject <$> feats)
     ∧ ∀ f, f ∈ out ↔
            f ∈ inject <$> feats
            ∧ ∀ field,
                field ∈ split "+" (input_field (cfg self))
                        ++ split "+" (output_field (cfg self)) →
                ∃ s, labels (data f) !! field = Some (PStr s)
                     ∧ s ≠ EmptyString ∧ ¬ blank s)
  ∧ (Forall (λ f, well_typed self (inject f)) feats →
     is_Ok (remove_invalid_samples self feats)).
Proof.
  split; [|apply remove_invalid_samples_total].
  intros out H. apply remove_invalid_samples_Ok in H as [-> _].
  split; [done|]. intros f.
  rewrite list_elem_of_filter. unfold complete. rewrite Forall_forall.
  tauto.
Qed.

(** C3, as amended.  When [remove_invalid_samples] returns, an example is
    dropped exactly when some field name obtained by splitting
    [input_field] and [output_field] on '+' holds [None] or a string that is
    empty or made of white space only, and it is retained exactly when every
    such field holds a string that is neither. *)
Theorem dropped_iff_some_field_lacking self feats out f :
  remove_invalid_samples self feats = Ok out → f ∈ feats →
  (inject f ∉ out ↔
     ∃ field, field ∈ split "+" (input_field (cfg self))
                      ++ split "+" (output_field (cfg self))
              ∧ field_lacking (labels (data (inject f))) field)
  ∧ (inject f ∈ out ↔
     ∀ field, field ∈ split "+" (input_field (cfg self))
                      ++ split "+" (output_field (cfg self)) →
              field_present (labels (data (inject f))) field).
Proof.
  intros H Hf. apply remove_invalid_samples_Ok in H as [-> Hall].
  rewrite Forall_forall in Hall. specialize (Hall f Hf).
  rewrite Forall_forall in Hall.
  assert (inject f ∈ filter (complete self) (inject <$> feats)
          ↔ ∀ field, field ∈ all_fields self →
                     field_present (labels (data (inject f))) field) as Hin.
  { rewrite list_elem_of_filter. unfold complete. rewrite Forall_forall.
    split; [tauto|]. intros Hc. split; [done|]. by apply list_elem_of_fmap_2. }
  split; [|done]. rewrite Hin. split.
  - intros Hnot.
    destruct (decide (Exists (λ field, ¬ field_present
                (labels (data (inject f))) field) (all_fields self)))
      as [Hex|Hex].
    + apply Exists_exists in Hex as (field & Hfield & Hnp).
      exists field. split; [done|].
      by destruct (Hall field Hfield).
    + destruct Hnot. intros field Hfield.
      destruct (decide (field_present (labels (data (inject f))) field));
        [done|].
      destruct Hex. apply Exists_exists. by exists field.
  - intros (field & Hfield & Hlack) Hc.
    by apply (lacking_not_present _ _ Hlack), Hc.
Qed.

(** C3, as stated, fails: with [input_field = "passage+utterance"] and
    [output_field = "response"], the example whose utterance is "U", whose
    response is "R" and whose passage is [None] is dropped, although its
    fields [utterance] and [response] hold non-empty text. *)
Lemma one_field_present_yet_dropped :
  remove_invalid_samples (Sample.passage_dataset []) [Sample.no_passage_example]
  = Ok []
  ∧ "utterance" ∈ split "+" (input_field Sample.passage_config)
                   ++ split "+" (output_field Sample.passage_config)
  ∧ field_present (labels (data (inject Sample.no_passage_example))) "utterance".
Proof.
  split_and!.
  - by vm_compute.
  - vm_compute. apply list_elem_of_further, list_elem_of_here.
  - exists "U". split_and!; [by vm_compute | done |].
    intros Hb. apply blank_cons in Hb as [Hc _]. by vm_compute in Hc.
Qed.

(** The filter on the two sample examples: the one without passage is
    dropped, the one with a passage is kept. *)
Lemma filter_law_sample :
  remove_invalid_samples (Sample.passage_dataset [])
    [Sample.no_passage_example; Sample.passage_example]
  = Ok [inject Sample.passage_example].
Proof.
  destruct (filter_law (Sample.passage_dataset [])
    [Sample.no_passage_example; Sample.passage_example]) as [Hout Hok].
  destruct (remove_invalid_samples _ _) as [out|e] eqn:E.
  - destruct (Hout out eq_refl) as [-> _]. by vm_compute.
  - exfalso. apply Hok. repeat constructor; vm_compute; eauto.
Defined.

Lemma dropped_iff_some_field_lacking_sample :
  inject Sample.no_passage_example
  ∉ [inject Sample.passage_example].
Proof.
  apply (dropped_iff_some_field_lacking (Sample.passage_dataset [])
           [Sample.no_passage_example; Sample.passage_example]
           [inject Sample.passage_example] Sample.no_passage_example).
  - by vm_compute.
  - apply list_elem_of_here.
  - exists "passage". split; [vm_compute; apply list_elem_of_here|].
    exists PNone. split; [by vm_compute | by left].
Defined.

(** *** Retrieval *)

Lemma getitem_elem {A : Type} (l : list A) (i : Z) (x : A) :
  getitem l i = Ok x → x ∈ l.
Proof.
  unfold getitem. destruct (_ <? 0)%Z; [done|].
  destruct (l !! _) as [y|] eqn:E; [|done].
  intros [= <-]. by apply list_elem_of_lookup_2 in E.
Qed.

Lemma mask_padding_lookup pad lbls k :
  mask_padding pad lbls !! k
  = (λ t, if decide (t = pad) then (-100)%Z else t) <$> lbls !! k.
Proof.
  unfold mask_padding. rewrite list_lookup_fmap.
  destruct (lbls !! k) as [t|]; simpl; [|done].
  destruct (Z.eqb_spec t pad); by case_decide.
Qed.

(** C4. In the target sequence returned by [__getitem__], every position
    that held the padding id in the tokenized target holds -100 and every
    other position holds what the tokenized target held; so, the token ids
    being vocabulary indices (not negative), a position holds -100 if and
    only if the tokenized target held the padding id there. *)
Theorem padding_law self idx enc_in enc_out :
  encode_example self idx = Ok (enc_in, enc_out) →
  ∃ lbls,
    __getitem__ self idx = Ok (input_ids enc_in, attention_mask enc_in, lbls)
    ∧ length lbls = length (input_ids enc_out)
    ∧ (∀ k t, input_ids enc_out !! k = Some t →
         lbls !! k = Some (if decide (t = pad_token_id (tokenizer_obj self))
                           then (-100)%Z else t))
    ∧ (∀ k, lbls !! k = Some (-100)%Z ↔
            input_ids enc_out !! k = Some (pad_token_id (tokenizer_obj self))
            ∨ input_ids enc_out !! k = Some (-100)%Z)
    ∧ (Forall (λ t, (0 ≤ t)%Z) (input_ids enc_out) →
       ∀ k, lbls !! k = Some (-100)%Z ↔
            input_ids enc_out !! k = Some (pad_token_id (tokenizer_obj self))).
Proof.
  intros H. unfold __getitem__. rewrite H. simpl.
  eexists. split; [reflexivity|].
  set (pad := pad_token_id (tokenizer_obj self)).
  assert (∀ k, mask_padding pad (input_ids enc_out) !! k = Some (-100)%Z ↔
               input_ids enc_out !! k = Some pad
               ∨ input_ids enc_out !! k = Some (-100)%Z) as Hiff.
  { intros k. rewrite mask_padding_lookup.
    destruct (input_ids enc_out !! k) as [t|]; simpl;
      [|split; [done | by intros [|]]].
    case_decide as Ht.
    - split; [intros _; left; by subst | done].
    - split; [by right | by intros [[= ?]|?]]. }
  split_and!.
  - unfold mask_padding. by rewrite length_map.
  - intros k t Hk. by rewrite mask_padding_lookup, Hk.
  - done.
  - intros Hpos k. rewrite Hiff. split; [|by left].
    intros [Hk|Hk]; [done|].
    rewrite Forall_forall in Hpos.
    apply list_elem_of_lookup_2, Hpos in Hk. lia.
Qed.

(** On the dataset holding the sample example with passage "P", utterance
    "U" and response "R", with sequences of length 8. *)
Lemma padding_law_sample :
  ∃ ids mask lbls,
    __getitem__ (Sample.passage_dataset [inject Sample.passage_example]) 0
    = Ok (ids, mask, lbls)
    ∧ ∀ k, lbls !! k = Some (-100)%Z ↔
           [82; 0; 0; 0; 0; 0; 0; 0]%Z !! k = Some 0%Z.
Proof.
  destruct (encode_example
              (Sample.passage_dataset [inject Sample.passage_example]) 0)
    as [[ein eout]|e] eqn:E; [|by vm_compute in E].
  destruct (padding_law _ _ _ _ E) as (lbls & Hget & _ & _ & _ & Hiff).
  vm_compute in E. injection E as <- <-.
  eexists _, _, lbls. split; [exact Hget|].
  apply Hiff. simpl. repeat constructor; lia.
Defined.

(** *** The prompt *)

Lemma init_Ok dataset_split proc tok c self :
  __init__ dataset_split proc tok c = Ok self →
  ∃ name feats out,
    match dataset_split with inl s => Ok s | inr l => getitem l 0%Z end = Ok name
    ∧ proc name = Ok feats
    ∧ remove_invalid_samples
        {| cfg := c; tokenizer_obj := tok; features := feats |} feats = Ok out
    ∧ self = {| cfg := c; tokenizer_obj := tok;
                features := if debug_mode c then take 16 out else out |}.
Proof.
  unfold __init__. intros H.
  apply bind_Ok_inv in H as (name & Hname & H).
  apply bind_Ok_inv in H as (feats & Hfeats & H).
  apply bind_Ok_inv in H as (out & Hout & [= <-]).
  by exists name, feats, out.
Qed.

Lemma format_fragments lbls parts values acc :
  Forall2 (λ part v, lbls !! part = Some (PStr v)) parts values →
  for_each (λ acc part,
      v <- getkey lbls part ;;
      fragment <- str_add (part +:+ ": ") v ;;
      Ok (acc ++ [fragment])) parts acc
  = Ok (acc ++ zip_with (λ part v, (part +:+ ": ") +:+ v) parts values).
Proof.
  intros H. revert acc.
  induction H as [|part v parts values Hv _ IH]; intros acc; simpl.
  - by rewrite app_nil_r.
  - unfold getkey. rewrite Hv. simpl. rewrite IH. by rewrite <- app_assoc.
Qed.

Lemma present_values lbls parts :
  Forall (field_present lbls) parts →
  ∃ values, Forall2 (λ part v, lbls !! part = Some (PStr v)) parts values.
Proof.
  induction 1 as [|part parts (v & Hv & _) _ [values IH]].
  - by exists [].
  - exists (v :: values). by constructor.
Qed.

(** C5. In a dataset built by the constructor, for every example that
    [__getitem__] reaches, the prompt is made of the fragments
    [field: value], one for each '+'-separated field name of [input_field]
    in the declared order, joined by single spaces, and it is this prompt
    that is encoded.  With [input_field = "passage+utterance"], a passage
    [P] and an utterance [U], the prompt is [passage: P utterance: U]. *)
Theorem prompt_format dataset_split proc tok c self :
  __init__ dataset_split proc tok c = Ok self →
  (∀ idx f, getitem (features self) idx = Ok f →
     ∃ values,
       Forall2 (λ part v, labels (data f) !! part = Some (PStr v))
               (split "+" (input_field c)) values
       ∧ format_prompt self (data f)
         = Ok (data f,
               join " " (zip_with (λ part v, (part +:+ ": ") +:+ v)
                                  (split "+" (input_field c)) values))
       ∧ encode_example self idx
         = (output_sentence <- getkey (labels (data f)) (output_field c) ;;
            enc_in <- default_encode self
                        (PStr (join " "
                           (zip_with (λ part v, (part +:+ ": ") +:+ v)
                                     (split "+" (input_field c)) values))) ;;
            enc_out <- default_encode self output_sentence ;;
            Ok (enc_in, enc_out)))
  ∧ (∀ ex P U,
       input_field c = "passage+utterance" →
       labels ex !! "passage" = Some (PStr P) → utterance ex = PStr U →
       format_prompt self ex
       = Ok (set_utterance ex, "passage: " +:+ P +:+ " utterance: " +:+ U)).
Proof.
  intros Hinit.
  destruct (init_Ok _ _ _ _ _ Hinit)
    as (name & feats & out & _ & _ & Hout & ->).
  split.
  - intros idx f Hidx.
    apply remove_invalid_samples_Ok in Hout as [-> _].
    assert (f ∈ filter
              (complete {| cfg := c; tokenizer_obj := tok; features := feats |})
              (inject <$> feats)) as Hf.
    { apply getitem_elem in Hidx. simpl in Hidx.
      destruct (debug_mode c); [|done].
      by apply (subseteq_take 16). }
    apply list_elem_of_filter in Hf as [Hc Hf].
    apply list_elem_of_fmap in Hf as (f0 & -> & _).
    unfold complete, all_fields in Hc. apply Forall_app in Hc as [Hc _].
    simpl in Hc. apply present_values in Hc as [values Hvalues].
    exists values.
    assert (set_utterance (data (inject f0)) = data (inject f0)) as Hidem.
    { change (data (inject (inject f0)) = data (inject f0)).
      by rewrite inject_idem. }
    assert (format_prompt
              {| cfg := c; tokenizer_obj := tok;
                 features := if debug_mode c
                             then take 16 (filter (complete
                               {| cfg := c; tokenizer_obj := tok;
                                  features := feats |}) (inject <$> feats))
                             else filter (complete
                               {| cfg := c; tokenizer_obj := tok;
                                  features := feats |}) (inject <$> feats) |}
              (data (inject f0))
            = Ok (data (inject f0),
                  join " " (zip_with (λ part v, (part +:+ ": ") +:+ v)
                                     (split "+" (input_field c)) values)))
      as Hprompt.
    { unfold format_prompt. rewrite Hidem.
      unfold input_label_type. cbn [cfg].
      by rewrite (format_fragments _ _ values). }
    split_and!; [done..|].
    unfold encode_example. rewrite Hidx. cbn [bind]. by rewrite Hprompt.
  - intros ex P U Hin HP HU. unfold format_prompt, input_label_type.
    cbn [cfg]. rewrite Hin.
    rewrite (format_fragments _ _ [P; U]); [done|].
    repeat constructor; simpl.
    + rewrite lookup_insert_ne by done. exact HP.
    + rewrite lookup_insert_eq. by rewrite HU.
Qed.

(** The prompts of the dataset built from the sample test split, and the
    prompt of the example with passage "P" and utterance "U". *)
Lemma prompt_format_sample :
  ∃ self,
    __init__ (inl "test")
      (get_dialog_examples Sample.max_str_digits Sample.literal_eval_str
          Sample.processor)
      Sample.char_tokenizer Sample.passage_config = Ok self
    ∧ format_prompt self (data Sample.passage_example)
      = Ok (set_utterance (data Sample.passage_example),
            "passage: P utterance: U")
    ∧ ∃ f, getitem (features self) 0 = Ok f
           ∧ format_prompt self (data f)
             = Ok (data f, "passage: second passage of 1 utterance: query 1").
Proof.
  assert ((self <- __init__ (inl "test")
             (get_dialog_examples Sample.max_str_digits Sample.literal_eval_str
                 Sample.processor)
             Sample.char_tokenizer Sample.passage_config ;;
           f <- getitem (features self) 0 ;;
           Ok (labels (data f) !! "passage", labels (data f) !! "utterance"))
          = Ok (Some (PStr "second passage of 1"), Some (PStr "query 1")))
    as Hlabels by (by vm_compute).
  destruct (__init__ (inl "test")
      (get_dialog_examples Sample.max_str_digits Sample.literal_eval_str
          Sample.processor)
      Sample.char_tokenizer Sample.passage_config) as [self|e] eqn:E;
    [|done].
  destruct (prompt_format _ _ _ _ _ E) as [Hidx Hpu].
  exists self. split_and!; [done | by apply (Hpu _ "P" "U") |].
  cbn [bind] in Hlabels.
  destruct (getitem (features self) 0) as [f|e] eqn:Hf; [|done].
  cbn [bind] in Hlabels. injection Hlabels as Hpassage Hutterance.
  exists f. split; [done|].
  destruct (Hidx 0%Z f Hf) as (values & Hvalues & Hprompt & _).
  change (split "+" (input_field Sample.passage_config))
    with ["passage"; "utterance"] in Hvalues, Hprompt.
  apply Forall2_cons_inv_l in Hvalues as (v1 & vs & H1 & Hvalues & ->).
  apply Forall2_cons_inv_l in Hvalues as (v2 & vs' & H2 & Hvalues & ->).
  apply Forall2_nil_inv_l in Hvalues as ->.
  rewrite Hpassage in H1. rewrite Hutterance in H2.
  injection H1 as <-. injection H2 as <-.
  exact Hprompt.
Defined.

(** *** Debug mode *)

(** C9. With [debug_mode] set, the constructor keeps the first 16 of the
    examples that pass the filter, in order, and all of them when fewer
    than 16 pass; when at least 16 pass (40, say), [__len__] returns 16 and
    [__getitem__(16)] raises [IndexError]. *)
Theorem debug_prefix dataset_split proc tok c self :
  __init__ dataset_split proc tok c = Ok self → debug_mode c = true →
  ∃ name feats out,
    match dataset_split with inl s => Ok s | inr l => getitem l 0%Z end = Ok name
    ∧ proc name = Ok feats
    ∧ remove_invalid_samples
        {| cfg := c; tokenizer_obj := tok; features := feats |} feats = Ok out
    ∧ features self = take 16 out
    ∧ __len__ self = min 16 (length out)
    ∧ (length out ≤ 16 → features self = out)
    ∧ (16 ≤ length out →
       __len__ self = 16 ∧ __getitem__ self 16 = Raise IndexError)
    ∧ (length out = 40 →
       __len__ self = 16 ∧ __getitem__ self 16 = Raise IndexError).
Proof.
  intros Hinit Hdebug.
  destruct (init_Ok _ _ _ _ _ Hinit)
    as (name & feats & out & Hname & Hfeats & Hout & ->).
  exists name, feats, out. rewrite Hdebug. unfold __len__. cbn [features].
  assert (16 ≤ length out →
          length (take 16 out) = 16
          ∧ __getitem__ {| cfg := c; tokenizer_obj := tok;
                           features := take 16 out |} 16
            = Raise IndexError) as Hfull.
  { intros Hlen. split; [rewrite length_take; lia|].
    unfold __getitem__, encode_example, getitem. cbn [features].
    rewrite length_take. replace (16 `min` length out) with 16 by lia.
    simpl. rewrite lookup_take_ge; [done | lia]. }
  split_and!; try done.
  - rewrite length_take. lia.
  - intros Hlen. by apply take_ge.
  - intros Hlen. apply Hfull. lia.
Qed.

(** The sample processor with 40 records, all of which pass the filter on
    [utterance] and [response]. *)
Lemma debug_prefix_sample :
  ∃ self,
    __init__ (inl "test")
      (get_dialog_examples Sample.max_str_digits Sample.literal_eval_str
          Sample.large_processor)
      Sample.char_tokenizer Sample.debug_config = Ok self
    ∧ __len__ self = 16
    ∧ __getitem__ self 16 = Raise IndexError.
Proof.
  assert (is_Ok (__init__ (inl "test")
      (get_dialog_examples Sample.max_str_digits Sample.literal_eval_str
          Sample.large_processor)
      Sample.char_tokenizer Sample.debug_config)) as Hok
    by (vm_compute; exact I).
  destruct (__init__ (inl "test")
      (get_dialog_examples Sample.max_str_digits Sample.literal_eval_str
          Sample.large_processor)
      Sample.char_tokenizer Sample.debug_config) as [self|e] eqn:E;
    [|destruct Hok].
  destruct (debug_prefix _ _ _ _ _ E eq_refl)
    as (name & feats & out & Hname & Hfeats & Hout & _ & _ & _ & _ & H40).
  exists self. split; [reflexivity|]. apply H40.
  injection Hname as <-.
  assert (match
            (feats <- get_dialog_examples Sample.max_str_digits Sample.literal_eval_str
                        Sample.large_processor "test" ;;
             remove_invalid_samples
               {| cfg := Sample.debug_config;
                  tokenizer_obj := Sample.char_tokenizer;
                  features := feats |} feats)
          with Ok out => length out | Raise _ => 0 end = 40)
    as Hlen by (vm_compute; reflexivity).
  rewrite Hfeats in Hlen. cbn [bind] in Hlen. rewrite Hout in Hlen.
  exact Hlen.
Defined.

End DatasetFacts.

(** ** Further facts on the data processor *)

Module ProcessorExtras.
Import Py MSMarco SplitFacts ProcessorFacts.

Lemma StronglySorted_lt_seq start len : StronglySorted lt (seq start len).
Proof.
  revert start. induction len as [|len IH]; intros start; simpl;
    constructor; [apply IH|].
  apply Forall_forall. intros i Hi. apply elem_of_seq in Hi. lia.
Qed.

Lemma StronglySorted_sublist {A : Type} (R : relation A) (l k : list A) :
  l `sublist_of` k → StronglySorted R k → StronglySorted R l.
Proof.
  induction 1 as [|x l k Hsub IH|x l k Hsub IH]; intros Hk.
  - constructor.
  - apply StronglySorted_cons in Hk as [Hx Hk].
    apply StronglySorted_cons. split; [|by apply IH].
    rewrite Forall_forall in Hx |- *. intros y Hy. apply Hx.
    by apply (elem_of_sublist l k).
  - apply StronglySorted_cons in Hk as [_ Hk]. by apply IH.
Qed.

Lemma select_idxs_sublist split n idxs :
  select_idxs split n = Ok idxs → idxs `sublist_of` seq 0 n.
Proof.
  unfold select_idxs.
  destruct (String.eqb split "train").
  { intros [= <-]. rewrite train_idxs_filter. apply sublist_filter. }
  destruct (String.eqb split "dev").
  { intros [= <-]. rewrite dev_idxs_filter. apply sublist_filter. }
  destruct (String.eqb split "test"); [|done].
  by intros [= <-].
Qed.

Section WithParser.
Variable max_digits : nat.
Variable le : string → result pyval.

Lemma get_dialog_examples_Ok_inv self split exs :
  get_dialog_examples max_digits le self split = Ok exs →
  ∃ source raw answers idxs,
    dataset_split_print !! split = Some source
    ∧ data_dir self !! (source +:+ "_v2.1.json") = Some raw
    ∧ raw !! "answers" = Some answers
    ∧ select_idxs split (size answers) = Ok idxs
    ∧ mapM (make_example max_digits le raw) idxs = Ok exs.
Proof.
  unfold get_dialog_examples. intros H.
  apply bind_Ok_inv in H as (source & Hsource%getkey_Ok & H).
  apply bind_Ok_inv in H as (raw & Hraw & H).
  apply bind_Ok_inv in H as (answers & Hanswers%getkey_Ok & H).
  apply bind_Ok_inv in H as (idxs & Hidxs & H).
  rewrite for_each_mapM in H.
  apply bind_Ok_inv in H as (ys & Hys & [= <-]).
  exists source, raw, answers, idxs. split_and!; try done.
  unfold open_json in Hraw.
  destruct (data_dir self !! _) as [d|]; [by injection Hraw as <- | done].
Qed.

(** X1. A split name other than "train", "dev" and "test" raises [KeyError]
    at the look-up in [dataset_split_print], before any file is opened:
    the result does not depend on the data directory. *)
Theorem unknown_split_KeyError self split :
  split ≠ "train" → split ≠ "dev" → split ≠ "test" →
  get_dialog_examples max_digits le self split = Raise KeyError.
Proof.
  intros Htrain Hdev Htest. unfold get_dialog_examples, getkey.
  assert (dataset_split_print !! split = None) as ->; [|done].
  unfold dataset_split_print.
  by rewrite !lookup_insert_ne, lookup_empty.
Qed.

(** X2. When the file of the source is missing from the data directory the
    call raises [FileNotFoundError]: "train" and "dev" need
    [train_v2.1.json], "test" needs [dev_v2.1.json]; and a file without an
    [answers] member raises [KeyError], whatever else it holds. *)
Theorem missing_file_or_answers self :
  (data_dir self !! "train_v2.1.json" = None →
     get_dialog_examples max_digits le self "train" = Raise FileNotFoundError
     ∧ get_dialog_examples max_digits le self "dev" = Raise FileNotFoundError)
  ∧ (data_dir self !! "dev_v2.1.json" = None →
     get_dialog_examples max_digits le self "test" = Raise FileNotFoundError)
  ∧ (∀ raw, data_dir self !! "train_v2.1.json" = Some raw →
       raw !! "answers" = None →
       get_dialog_examples max_digits le self "train" = Raise KeyError
       ∧ get_dialog_examples max_digits le self "dev" = Raise KeyError)
  ∧ (∀ raw, data_dir self !! "dev_v2.1.json" = Some raw →
       raw !! "answers" = None →
       get_dialog_examples max_digits le self "test" = Raise KeyError).
Proof.
  unfold get_dialog_examples, getkey, open_json.
  change (dataset_split_print !! "train") with (Some "train").
  change (dataset_split_print !! "dev") with (Some "train").
  change (dataset_split_print !! "test") with (Some "dev").
  cbn [bind].
  change ("train" +:+ "_v2.1.json") with "train_v2.1.json".
  change ("dev" +:+ "_v2.1.json") with "dev_v2.1.json".
  split_and!.
  - by intros ->.
  - by intros ->.
  - intros raw -> Hans. cbn [bind]. by rewrite Hans.
  - intros raw -> Hans. cbn [bind]. by rewrite Hans.
Qed.

(** X3. A file whose [answers] mapping is empty yields the empty list of
    examples for the split that reads it; no other member of the file is
    looked at, so they may all be missing. *)
Theorem empty_answers_no_examples self split source raw :
  dataset_split_print !! split = Some source →
  data_dir self !! (source +:+ "_v2.1.json") = Some raw →
  raw !! "answers" = Some ∅ →
  get_dialog_examples max_digits le self split = Ok [].
Proof.
  intros Hsource Hraw Hans.
  assert (select_idxs split (size (∅ : gmap string pyval)) = Ok []) as Hidxs.
  { rewrite map_size_empty. unfold select_idxs.
    unfold dataset_split_print in Hsource.
    destruct (String.eqb_spec split "train"); [done|].
    destruct (String.eqb_spec split "dev"); [done|].
    destruct (String.eqb_spec split "test"); [done|].
    by rewrite !lookup_insert_ne, lookup_empty in Hsource. }
  by rewrite (get_dialog_examples_from_file max_digits le self split source raw ∅ []).
Qed.

Lemma get_dialog_examples_ids_sorted self split exs :
  get_dialog_examples max_digits le self split = Ok exs →
  StronglySorted lt (map (λ f, example_id (data f)) exs).
Proof.
  intros H.
  destruct (get_dialog_examples_Ok_inv _ _ _ H)
    as (source & raw & answers & idxs & _ & _ & _ & Hidxs & Hexs).
  apply mapM_make_example_ids in Hexs as ->.
  apply select_idxs_sublist in Hidxs.
  apply (StronglySorted_sublist _ _ _ Hidxs), StronglySorted_lt_seq.
Qed.

(** X4. In the list returned for any split the [example_id]s increase
    strictly, so no two examples share an id, and each id is below the
    number of entries of the [answers] mapping of the file read. *)
Theorem example_ids_increasing self split exs :
  get_dialog_examples max_digits le self split = Ok exs →
  StronglySorted lt (map (λ f, example_id (data f)) exs)
  ∧ NoDup (map (λ f, example_id (data f)) exs)
  ∧ ∃ source raw answers,
      dataset_split_print !! split = Some source
      ∧ data_dir self !! (source +:+ "_v2.1.json") = Some raw
      ∧ raw !! "answers" = Some answers
      ∧ (∀ f, f ∈ exs → example_id (data f) < size answers)
      ∧ length exs ≤ size answers.
Proof.
  intros H.
  destruct (get_dialog_examples_Ok_inv _ _ _ H)
    as (source & raw & answers & idxs & Hsource & Hraw & Hans & Hidxs & Hexs).
  apply mapM_make_example_ids in Hexs as Hids.
  apply select_idxs_sublist in Hidxs. rewrite Hids.
  split_and!.
  - rewrite <- Hids. by apply (get_dialog_examples_ids_sorted self split).
  - apply (sublist_NoDup _ (seq 0 (size answers))); [apply NoDup_seq | done].
  - exists source, raw, answers. split_and!; try done.
    + intros f Hf.
      assert (example_id (data f) ∈ idxs) as Hin.
      { rewrite <- Hids. by apply (list_elem_of_fmap_2 (λ f, example_id (data f))). }
      apply (sublist_subseteq _ _ Hidxs), elem_of_seq in Hin. lia.
    + rewrite <- (length_map (λ f, example_id (data f))), Hids.
      apply sublist_length in Hidxs. by rewrite length_seq in Hidxs.
Qed.

(** X5. Every example returned for a split is built from the record of its
    own [example_id] in the file read: its utterance is the [query] entry,
    its [labels.service] the [query_type] entry of that index, and the
    [answers], [wellFormedAnswers] and [passages] mappings have an entry
    for it. *)
Theorem example_of_its_record self split exs f :
  get_dialog_examples max_digits le self split = Ok exs → f ∈ exs →
  ∃ source raw queries query_types answers wfas passages,
    dataset_split_print !! split = Some source
    ∧ data_dir self !! (source +:+ "_v2.1.json") = Some raw
    ∧ raw !! "query" = Some queries
    ∧ queries !! str (example_id (data f)) = Some (utterance (data f))
    ∧ raw !! "query_type" = Some query_types
    ∧ query_types !! str (example_id (data f))
      = labels (data f) !! "service"
    ∧ raw !! "answers" = Some answers
    ∧ is_Some (answers !! str (example_id (data f)))
    ∧ raw !! "wellFormedAnswers" = Some wfas
    ∧ is_Some (wfas !! str (example_id (data f)))
    ∧ raw !! "passages" = Some passages
    ∧ is_Some (passages !! str (example_id (data f))).
Proof.
  intros H Hf.
  destruct (get_dialog_examples_Ok_inv _ _ _ H)
    as (source & raw & answers' & idxs & Hsource & Hraw & _ & _ & Hexs).
  apply mapM_Ok_Forall2 in Hexs.
  assert (∃ i, make_example max_digits le raw i = Ok f) as [i Hi].
  { clear -Hexs Hf.
    induction Hexs as [|i y idxs ys Hy _ IH]; [by apply elem_of_nil in Hf|].
    apply elem_of_cons in Hf as [->|Hf]; [by exists i | by apply IH]. }
  pose proof (make_example_id max_digits le _ _ _ Hi) as Hid.
  destruct (make_example_inv max_digits le _ _ _ Hi)
    as (queries & utt & answers & a & answer & wfas & w & coll & fluent & qts
        & qt & passages & cand & cps & sel & texts & Hq & Hu & Has & Ha
        & Hanswer & Hws & Hw & Hcoll & Hfluent & Hqts & Hqt & Hps & Hcand
        & Hcps & Hsel & Htexts & Hutt & Lserv & Lresp & Lflu & Lpass & Pserv
        & Ppass).
  exists source, raw, queries, qts, answers, wfas, passages.
  rewrite Hid, Hutt. split_and!; try done; try by eexists.
  by rewrite Lserv.
Qed.

Lemma mapM_filter_cover {A B : Type} (f : A → result B) (P Q : A → Prop)
  `{∀ x, Decision (P x)} `{∀ x, Decision (Q x)} (l : list A) (a b : list B) :
  (∀ x, Q x ↔ ¬ P x) →
  mapM f (filter P l) = Ok a → mapM f (filter Q l) = Ok b →
  ∃ c, mapM f l = Ok c ∧ c ≡ₚ a ++ b.
Proof.
  intros HQ. revert a b.
  induction l as [|x l IH]; intros a b Ha Hb.
  - injection Ha as <-. injection Hb as <-. by exists [].
  - destruct (decide (P x)) as [HP|HP].
    + rewrite filter_cons_True in Ha by done.
      rewrite filter_cons_False in Hb by (rewrite HQ; tauto).
      simpl in Ha. apply bind_Ok_inv in Ha as (y & Hy & Ha).
      apply bind_Ok_inv in Ha as (a' & Ha' & [= <-]).
      destruct (IH _ _ Ha' Hb) as (c & Hc & Hperm).
      exists (y :: c). simpl. rewrite Hy, Hc. simpl.
      split; [done|]. by rewrite Hperm.
    + rewrite filter_cons_False in Ha by done.
      rewrite filter_cons_True in Hb by (by rewrite HQ).
      simpl in Hb. apply bind_Ok_inv in Hb as (y & Hy & Hb).
      apply bind_Ok_inv in Hb as (b' & Hb' & [= <-]).
      destruct (IH _ _ Ha Hb') as (c & Hc & Hperm).
      exists (y :: c). simpl. rewrite Hy, Hc. simpl.
      split; [done|]. rewrite Hperm. apply Permutation_middle.
Qed.

(** X6. When both the "train" and the "dev" split of a file can be built,
    every record of the file can, and the two lists together hold exactly
    the examples of a full pass over the file (the list the "test" split
    returns when the same file is the dev source), each once. *)
Theorem train_dev_cover_file self raw answers train dev :
  data_dir self !! "train_v2.1.json" = Some raw →
  raw !! "answers" = Some answers →
  get_dialog_examples max_digits le self "train" = Ok train →
  get_dialog_examples max_digits le self "dev" = Ok dev →
  ∃ all,
    mapM (make_example max_digits le raw) (seq 0 (size answers)) = Ok all
    ∧ all ≡ₚ train ++ dev
    ∧ length train + length dev = size answers
    ∧ ∀ self', data_dir self' !! "dev_v2.1.json" = Some raw →
               get_dialog_examples max_digits le self' "test" = Ok all.
Proof.
  intros Hraw Hans Htrain Hdev.
  rewrite (get_dialog_examples_from_file max_digits le self "train" "train" raw answers
             (train_idxs (size answers))) in Htrain by done.
  rewrite (get_dialog_examples_from_file max_digits le self "dev" "train" raw answers
             (dev_idxs (size answers))) in Hdev by done.
  rewrite train_idxs_filter in Htrain. rewrite dev_idxs_filter in Hdev.
  destruct (mapM_filter_cover _ (λ i, i mod 10 ≠ 0) (λ i, i mod 10 = 0)
              _ _ _ (λ i, conj (λ H H', H' H) (dec_stable (P:=i mod 10 = 0)))
              Htrain Hdev) as (all & Hall & Hperm).
  exists all. split_and!; try done.
  - rewrite <- length_app, <- Hperm.
    apply mapM_make_example_ids in Hall.
    by rewrite <- (length_map (λ f, example_id (data f))), Hall, length_seq.
  - intros self' Hraw'.
    by rewrite (get_dialog_examples_from_file max_digits le self' "test" "dev"
                  raw answers
                  (seq 0 (size answers))).
Qed.

#[local] Instance str_inj : Inj (=) (=) str.
Proof. unfold str. apply _. Qed.

(** X7. The "test" split can only be built from a file whose [answers]
    mapping is keyed exactly by the decimal numerals of 0, ..., N-1, where
    N is its number of entries. *)
Theorem test_split_dense_keys self raw answers exs :
  data_dir self !! "dev_v2.1.json" = Some raw →
  raw !! "answers" = Some answers →
  get_dialog_examples max_digits le self "test" = Ok exs →
  ∀ k, is_Some (answers !! k) ↔ ∃ i, i < size answers ∧ k = str i.
Proof.
  intros Hraw Hans Htest.
  rewrite (get_dialog_examples_from_file max_digits le self "test" "dev" raw answers
             (seq 0 (size answers))) in Htest by done.
  assert (∀ i, i < size answers → is_Some (answers !! str i)) as Hkeys.
  { intros i Hi. apply mapM_Ok_Forall2 in Htest.
    assert (i ∈ seq 0 (size answers)) as Hin by (apply elem_of_seq; lia).
    apply list_elem_of_lookup in Hin as [j Hj].
    destruct (Forall2_lookup_l _ _ _ _ _ Htest Hj) as (f & _ & Hf).
    destruct (make_example_inv max_digits le _ _ _ Hf)
      as (queries & utt & answers' & a & answer & wfas & w & coll & fluent
          & qts & qt & passages & cand & cps & sel & texts & Hq & Hu & Has
          & Ha & _).
    rewrite Hans in Has. injection Has as <-. by exists a. }
  set (keys := list_to_set (str <$> seq 0 (size answers)) : gset string).
  assert (keys = dom answers) as Hdom.
  { apply set_subseteq_size_eq.
    - intros k Hk. apply elem_of_list_to_set, list_elem_of_fmap in Hk
        as (i & -> & Hi). apply elem_of_seq in Hi.
      apply elem_of_dom, Hkeys. lia.
    - rewrite size_dom. unfold keys.
      rewrite size_list_to_set by (apply NoDup_fmap_2, NoDup_seq; apply _).
      by rewrite length_fmap, length_seq. }
  intros k. rewrite <- elem_of_dom, <- Hdom. unfold keys.
  rewrite elem_of_list_to_set, list_elem_of_fmap. split.
  - intros (i & -> & Hi). apply elem_of_seq in Hi. exists i. split; [lia|done].
  - intros (i & Hi & ->). exists i. split; [done|]. apply elem_of_seq. lia.
Qed.

Lemma mapM_first_error {A B : Type} (f : A → result B) pre x post e :
  Forall (λ y, is_Ok (f y)) pre → f x = Raise e →
  mapM f (pre ++ x :: post) = Raise e.
Proof.
  intros Hpre Hx. induction Hpre as [|y pre Hy _ IH]; simpl.
  - by rewrite Hx.
  - destruct (f y); [|done]. simpl. by rewrite IH.
Qed.

(** X8. An empty list of answers is not tolerated: when the records before
    record [i] can be built and record [i] has a query but an empty
    [answers] list, the "test" split raises [IndexError]; no record is
    skipped. *)
Theorem empty_answer_list_IndexError self raw queries answers utt i :
  data_dir self !! "dev_v2.1.json" = Some raw →
  raw !! "query" = Some queries → queries !! str i = Some utt →
  raw !! "answers" = Some answers → answers !! str i = Some (PList []) →
  i < size answers →
  (∀ j, j < i → is_Ok (make_example max_digits le raw j)) →
  make_example max_digits le raw i = Raise IndexError
  ∧ get_dialog_examples max_digits le self "test" = Raise IndexError.
Proof.
  intros Hraw Hq Hu Hans Ha Hi Hbefore.
  assert (make_example max_digits le raw i = Raise IndexError) as Hrec.
  { unfold make_example, getkey. rewrite Hq. cbn [bind]. rewrite Hu.
    cbn [bind]. rewrite Hans. cbn [bind]. by rewrite Ha. }
  split; [done|].
  rewrite (get_dialog_examples_from_file max_digits le self "test" "dev" raw answers
             (seq 0 (size answers))) by done.
  replace (size answers) with (i + S (size answers - S i)) by lia.
  rewrite seq_app. cbn [seq]. apply mapM_first_error; [|done].
  apply Forall_forall. intros j Hj. apply elem_of_seq in Hj.
  apply Hbefore. lia.
Qed.

Lemma mapM_ext {A B : Type} (f g : A → result B) l :
  (∀ x, f x = g x) → mapM f l = mapM g l.
Proof.
  intros Hfg. induction l as [|x l IH]; simpl; [done|].
  by rewrite Hfg, IH.
Qed.

(** X9. [literal_eval] is only called on a [wellFormedAnswers] value that is
    not a list: on a file whose well-formed answers are all lists, the result
    of [get_dialog_examples] is the same for every parser. *)
Theorem lists_need_no_parser (le' : string → result pyval) self split
  source raw :
  dataset_split_print !! split = Some source →
  data_dir self !! (source +:+ "_v2.1.json") = Some raw →
  (∀ wfas k v, raw !! "wellFormedAnswers" = Some wfas →
               wfas !! k = Some v → is_list v = true) →
  get_dialog_examples max_digits le self split
  = get_dialog_examples max_digits le' self split.
Proof.
  intros Hsource Hraw Hlists.
  unfold get_dialog_examples, getkey, open_json.
  rewrite Hsource. cbn [bind]. rewrite Hraw. cbn [bind].
  destruct (raw !! "answers") as [answers|]; [|done]. cbn [bind].
  destruct (select_idxs split (size answers)) as [idxs|]; [|done].
  cbn [bind]. rewrite !for_each_mapM. f_equal.
  apply mapM_ext. intros i. unfold make_example, getkey.
  destruct (raw !! "query") as [queries|]; [|done]. cbn [bind].
  destruct (queries !! str i) as [utt|]; [|done]. cbn [bind].
  destruct (raw !! "answers") as [answers'|]; [|done]. cbn [bind].
  destruct (answers' !! str i) as [a|]; [|done]. cbn [bind].
  destruct (if is_list a then item0 a else Ok a) as [answer|]; [|done].
  cbn [bind].
  destruct (raw !! "wellFormedAnswers") as [wfas|] eqn:Hwfas; [|done].
  cbn [bind].
  destruct (wfas !! str i) as [w|] eqn:Hw; [|done]. cbn [bind].
  by rewrite (Hlists wfas (str i) w).
Qed.

Lemma make_example_shape raw i f :
  make_example max_digits le raw i = Ok f →
  ∃ qt a fl p texts,
    labels (data f)
    = <["service" := qt]> (<["response" := a]>
      (<["fluent_response" := fl]> (<["passage" := p]> ∅)))
    ∧ possible_labels (data f)
      = <["service" := service_labels]> (<["passage" := PList texts]> ∅).
Proof.
  unfold make_example. intros H.
  repeat (apply bind_Ok_inv in H as (? & _ & H)).
  injection H as <-. simpl. by eexists _, _, _, _, _.
Qed.

(** X10. Every example returned by [get_dialog_examples] has exactly the
    four labels [service], [response], [fluent_response] and [passage] (so
    [utterance] is no label of it) and exactly the two possible labels
    [service] and [passage]. *)
Theorem label_keys self split exs f :
  get_dialog_examples max_digits le self split = Ok exs → f ∈ exs →
  (∀ k, is_Some (labels (data f) !! k) ↔
        k ∈ ["service"; "response"; "fluent_response"; "passage"])
  ∧ labels (data f) !! "utterance" = None
  ∧ (∀ k, is_Some (possible_labels (data f) !! k) ↔
          k ∈ ["service"; "passage"]).
Proof.
  intros H Hf.
  destruct (get_dialog_examples_elem max_digits le _ _ _ _ H Hf) as (raw & i & Hi).
  destruct (make_example_shape _ _ _ Hi)
    as (qt & a & fl & p & texts & -> & ->).
  split_and!; [|done|]; intros k;
    rewrite <- elem_of_dom, !dom_insert_L, dom_empty_L;
    rewrite ?elem_of_union, !elem_of_singleton, elem_of_empty;
    rewrite !elem_of_cons, elem_of_nil; tauto.
Qed.

(** X22. A [wellFormedAnswers] value that is neither a list nor a string
    (JSON [null], a number, an object) makes the record fail with
    [ValueError], whatever the parser: it is not read as "no well-formed
    answer". *)
Theorem non_text_well_formed_ValueError raw i queries utt answers a answer
  wfas w :
  raw !! "query" = Some queries → queries !! str i = Some utt →
  raw !! "answers" = Some answers → answers !! str i = Some a →
  (if is_list a then item0 a else Ok a) = Ok answer →
  raw !! "wellFormedAnswers" = Some wfas → wfas !! str i = Some w →
  is_list w = false → (∀ s, w ≠ PStr s) →
  make_example max_digits le raw i = Raise ValueError.
Proof.
  intros Hq Hu Has Ha Hanswer Hws Hw Hl Hs.
  unfold make_example, getkey.
  rewrite Hq. cbn [bind]. rewrite Hu. cbn [bind].
  rewrite Has. cbn [bind]. rewrite Ha. cbn [bind].
  rewrite Hanswer. cbn [bind]. rewrite Hws. cbn [bind].
  rewrite Hw. cbn [bind]. rewrite Hl.
  destruct w; try done. by destruct (Hs s).
Qed.

(** X14. A record is built only if its [passages] value can be iterated and
    every candidate, selected or not, has an [is_selected] member that
    [int] accepts and a [passage_text] member; [possible_labels.passage]
    then has one text per candidate. *)
Theorem candidates_well_formed raw i f :
  make_example max_digits le raw i = Ok f →
  ∃ passages cand cps texts,
    raw !! "passages" = Some passages ∧ passages !! str i = Some cand
    ∧ iter cand = Ok cps
    ∧ Forall (λ cp, ∃ flag z t,
                item cp "is_selected" = Ok flag ∧ int max_digits flag = Ok z
                ∧ item cp "passage_text" = Ok t) cps
    ∧ possible_labels (data f) !! "passage" = Some (PList texts)
    ∧ length texts = length cps.
Proof.
  intros H.
  destruct (make_example_inv max_digits le _ _ _ H)
    as (queries & utt & answers & a & answer & wfas & w & coll & fluent & qts
        & qt & passages & cand & cps & sel & texts & Hq & Hu & Has & Ha
        & Hanswer & Hws & Hw & Hcoll & Hfluent & Hqts & Hqt & Hps & Hcand
        & Hcps & Hsel & Htexts & Hutt & Lserv & Lresp & Lflu & Lpass & Pserv
        & Ppass).
  exists passages, cand, cps, texts. split_and!; try done.
  - apply mapM_Ok_Forall2 in Htexts. clear -Hsel Htexts.
    revert sel Hsel.
    induction Htexts as [|cp t cps texts Ht _ IH]; intros sel Hsel;
      [constructor|].
    simpl in Hsel. apply bind_Ok_inv in Hsel as (o & Ho & Hsel).
    apply bind_Ok_inv in Hsel as (r & Hr & _).
    constructor; [|by apply (IH r)].
    unfold selected_text in Ho.
    apply bind_Ok_inv in Ho as (flag & Hflag & Ho).
    apply bind_Ok_inv in Ho as (z & Hz & _).
    by exists flag, z, t.
  - apply mapM_Ok_Forall2, Forall2_length in Htexts. done.
Qed.

End WithParser.

Lemma non_text_well_formed_ValueError_sample :
  make_example Sample.max_str_digits Sample.literal_eval_str
      Sample.null_answers_file 1
  = Raise ValueError.
Proof.
  by apply (non_text_well_formed_ValueError Sample.max_str_digits
              Sample.literal_eval_str
              Sample.null_answers_file 1
              (Sample.column 3 (λ i, PStr ("query " +:+ str i)))
              (PStr "query 1") (Sample.column 3 Sample.raw_answer)
              (Sample.raw_answer 1) (PStr "answer 1")
              (Sample.column 3 (λ _, PNone)) PNone).
Defined.

Lemma candidates_well_formed_sample :
  ∃ f texts,
    make_example Sample.max_str_digits Sample.literal_eval_str
        Sample.train_file 5 = Ok f
    ∧ possible_labels (data f) !! "passage" = Some (PList texts)
    ∧ length texts = 3.
Proof.
  assert (is_Ok (make_example Sample.max_str_digits Sample.literal_eval_str
      Sample.train_file 5))
    as Hok by (vm_compute; exact I).
  destruct (make_example Sample.max_str_digits Sample.literal_eval_str
      Sample.train_file 5)
    as [f|e] eqn:E; [|destruct Hok].
  destruct (candidates_well_formed Sample.max_str_digits Sample.literal_eval_str
      _ _ _ E)
    as (passages & cand & cps & texts & Hps & Hcand & Hcps & _ & Htexts
        & Hlen).
  exists f, texts. split_and!; [reflexivity | exact Htexts |].
  assert (Sample.train_file !! "passages" ≫= (λ ps, ps !! str 5)
          = Some (Sample.raw_passages 5)) as Hc by (vm_compute; reflexivity).
  rewrite Hps in Hc. cbn [mbind option_bind] in Hc.
  rewrite Hcand in Hc. injection Hc as ->.
  injection Hcps as <-. exact Hlen.
Defined.

Lemma unknown_split_KeyError_sample :
  get_dialog_examples Sample.max_str_digits Sample.literal_eval_str
      Sample.processor "validation"
  = Raise KeyError.
Proof. by apply unknown_split_KeyError. Defined.

(** [large_processor] has no train file; the files of [empty_processor] have
    an [answers] member only. *)
Lemma missing_file_or_answers_sample :
  get_dialog_examples Sample.max_str_digits Sample.literal_eval_str
      Sample.large_processor "train"
  = Raise FileNotFoundError
  ∧ get_dialog_examples Sample.max_str_digits Sample.literal_eval_str
      {| data_dir := <["dev_v2.1.json" := ∅]> ∅ |} "test"
    = Raise KeyError.
Proof.
  split.
  - by apply (missing_file_or_answers Sample.max_str_digits Sample.literal_eval_str
                Sample.large_processor).
  - by apply (missing_file_or_answers Sample.max_str_digits Sample.literal_eval_str
                {| data_dir := <["dev_v2.1.json" := ∅]> ∅ |}) with ∅.
Defined.

Lemma empty_answers_no_examples_sample :
  get_dialog_examples Sample.max_str_digits Sample.literal_eval_str
      Sample.empty_processor "dev"
  = Ok [].
Proof.
  by apply (empty_answers_no_examples Sample.max_str_digits Sample.literal_eval_str
              Sample.empty_processor "dev" "train" (<["answers" := ∅]> ∅)).
Defined.

Lemma example_ids_increasing_sample :
  ∃ exs,
    get_dialog_examples Sample.max_str_digits Sample.literal_eval_str
        Sample.processor "train"
    = Ok exs
    ∧ NoDup (map (λ f, example_id (data f)) exs).
Proof.
  assert (is_Ok (get_dialog_examples
      Sample.max_str_digits Sample.literal_eval_str Sample.processor
                   "train")) as Hok by (vm_compute; exact I).
  destruct (get_dialog_examples Sample.max_str_digits Sample.literal_eval_str
      Sample.processor
              "train") as [exs|e] eqn:E; [|destruct Hok].
  exists exs. split; [reflexivity|].
  by destruct (example_ids_increasing
      Sample.max_str_digits Sample.literal_eval_str _ _ _ E)
    as (_ & Hnodup & _).
Defined.

Lemma example_of_its_record_sample :
  ∃ exs f,
    get_dialog_examples Sample.max_str_digits Sample.literal_eval_str
        Sample.processor "test"
    = Ok exs
    ∧ f ∈ exs
    ∧ ∃ queries, Sample.dev_file !! "query" = Some queries
                 ∧ queries !! str (example_id (data f))
                   = Some (utterance (data f)).
Proof.
  assert (match get_dialog_examples
      Sample.max_str_digits Sample.literal_eval_str Sample.processor
                  "test" with Ok exs => length exs | Raise _ => 0 end = 3)
    as Hlen by (vm_compute; reflexivity).
  destruct (get_dialog_examples Sample.max_str_digits Sample.literal_eval_str
      Sample.processor "test")
    as [exs|e] eqn:E; [|discriminate Hlen].
  destruct exs as [|f exs]; [discriminate Hlen|].
  exists (f :: exs), f. split_and!; [reflexivity | apply list_elem_of_here |].
  destruct (example_of_its_record Sample.max_str_digits Sample.literal_eval_str
      _ _ _ f E
              (list_elem_of_here _ _))
    as (source & raw & queries & qts & answers & wfas & passages & Hsource
        & Hraw & Hq & Hu & _).
  injection Hsource as <-. injection Hraw as <-. by exists queries.
Defined.

Lemma train_dev_cover_file_sample :
  ∃ train dev,
    get_dialog_examples Sample.max_str_digits Sample.literal_eval_str
        Sample.processor "train"
    = Ok train
    ∧ get_dialog_examples Sample.max_str_digits Sample.literal_eval_str
        Sample.processor "dev"
      = Ok dev
    ∧ length train + length dev = 12.
Proof.
  assert (is_Ok (get_dialog_examples
      Sample.max_str_digits Sample.literal_eval_str Sample.processor
                   "train")) as Hok by (vm_compute; exact I).
  assert (is_Ok (get_dialog_examples
      Sample.max_str_digits Sample.literal_eval_str Sample.processor
                   "dev")) as Hok' by (vm_compute; exact I).
  destruct (get_dialog_examples Sample.max_str_digits Sample.literal_eval_str
      Sample.processor
              "train") as [train|e] eqn:E; [|destruct Hok].
  destruct (get_dialog_examples Sample.max_str_digits Sample.literal_eval_str
      Sample.processor
              "dev") as [dev|e] eqn:E'; [|destruct Hok'].
  exists train, dev. split_and!; [reflexivity..|].
  destruct (train_dev_cover_file Sample.max_str_digits Sample.literal_eval_str
      Sample.processor
              Sample.train_file (Sample.column 12 Sample.raw_answer)
              train dev eq_refl eq_refl E E') as (all & _ & _ & Hlen & _).
  exact Hlen.
Defined.

Lemma test_split_dense_keys_sample :
  Sample.column 3 Sample.raw_answer !! "7" = None.
Proof.
  assert (is_Ok (get_dialog_examples
      Sample.max_str_digits Sample.literal_eval_str Sample.processor
                   "test")) as Hok by (vm_compute; exact I).
  destruct (get_dialog_examples Sample.max_str_digits Sample.literal_eval_str
      Sample.processor
              "test") as [exs|e] eqn:E; [|destruct Hok].
  apply eq_None_not_Some. intros Hsome.
  apply (test_split_dense_keys Sample.max_str_digits Sample.literal_eval_str
      Sample.processor
           Sample.dev_file (Sample.column 3 Sample.raw_answer) exs
           eq_refl eq_refl E) in Hsome as (i & Hi & Heq).
  change (size (Sample.column 3 Sample.raw_answer)) with 3 in Hi.
  destruct i as [|[|[|i]]]; [by vm_compute in Heq..|lia].
Defined.

Lemma empty_answer_list_IndexError_sample :
  get_dialog_examples Sample.max_str_digits Sample.literal_eval_str
      Sample.empty_answer_processor
    "test" = Raise IndexError.
Proof.
  apply (empty_answer_list_IndexError Sample.max_str_digits Sample.literal_eval_str
           Sample.empty_answer_processor
           (<["answers" := <["1" := PList []]>
                             (Sample.column 3 Sample.raw_answer)]>
              Sample.dev_file)
           (Sample.column 3 (λ i, PStr ("query " +:+ str i)))
           (<["1" := PList []]> (Sample.column 3 Sample.raw_answer))
           (PStr "query 1") 1); try reflexivity.
  - vm_compute. lia.
  - intros j Hj. assert (j = 0) as -> by lia. vm_compute. exact I.
Defined.

Lemma lists_need_no_parser_sample :
  get_dialog_examples Sample.max_str_digits Sample.literal_eval_str
      Sample.list_answers_processor
    "test"
  = get_dialog_examples Sample.max_str_digits (λ _, Raise SyntaxError)
      Sample.list_answers_processor
      "test".
Proof.
  apply (lists_need_no_parser Sample.max_str_digits Sample.literal_eval_str
      (λ _, Raise SyntaxError)
           Sample.list_answers_processor "test" "dev"
           Sample.list_answers_file); [reflexivity..|].
  intros wfas k v Hwfas Hv. injection Hwfas as <-.
  apply elem_of_list_to_map_2, list_elem_of_fmap in Hv as (i & [= _ ->] & _).
  reflexivity.
Defined.

Lemma label_keys_sample :
  ∃ exs f,
    get_dialog_examples Sample.max_str_digits Sample.literal_eval_str
        Sample.processor "test"
    = Ok exs
    ∧ f ∈ exs ∧ labels (data f) !! "utterance" = None.
Proof.
  assert (match get_dialog_examples
      Sample.max_str_digits Sample.literal_eval_str Sample.processor
                  "test" with Ok exs => length exs | Raise _ => 0 end = 3)
    as Hlen by (vm_compute; reflexivity).
  destruct (get_dialog_examples Sample.max_str_digits Sample.literal_eval_str
      Sample.processor "test")
    as [exs|e] eqn:E; [|discriminate Hlen].
  destruct exs as [|f exs]; [discriminate Hlen|].
  exists (f :: exs), f. split_and!; [reflexivity | apply list_elem_of_here |].
  by destruct (label_keys Sample.max_str_digits Sample.literal_eval_str
      _ _ _ f E
                 (list_elem_of_here _ _)) as (_ & Hnone & _).
Defined.

End ProcessorExtras.

(** ** Further facts on the generation dataset *)

Module DatasetExtras.
Import Py MSMarco S2S ProcessorFacts ProcessorExtras DatasetFacts.

Lemma sublist_map {A B : Type} (g : A → B) (l k : list A) :
  l `sublist_of` k → map g l `sublist_of` map g k.
Proof.
  induction 1; simpl; [constructor | by constructor | by constructor].
Qed.

Lemma filter_inject_ids (P : DialogueInputExample → Prop)
  `{∀ f, Decision (P f)} (feats : list DialogueInputExample) :
  map (λ f, example_id (data f)) (filter P (inject <$> feats))
  `sublist_of` map (λ f, example_id (data f)) feats.
Proof.
  induction feats as [|f feats IH]; simpl; [constructor|].
  destruct (decide (P (inject f))).
  - rewrite filter_cons_True by done. simpl. by constructor.
  - rewrite filter_cons_False by done. by constructor.
Qed.

Lemma init_features dataset_split proc tok c self :
  __init__ dataset_split proc tok c = Ok self →
  cfg self = c ∧ tokenizer_obj self = tok
  ∧ ∃ name feats,
      match dataset_split with inl s => Ok s | inr l => getitem l 0%Z end
      = Ok name
      ∧ proc name = Ok feats
      ∧ features self
        `sublist_of` filter (complete self) (inject <$> feats).
Proof.
  intros H.
  destruct (init_Ok _ _ _ _ _ H)
    as (name & feats & out & Hname & Hfeats & Hout & ->).
  split_and!; [done..|]. exists name, feats. split_and!; [done..|].
  apply remove_invalid_samples_Ok in Hout as [-> _]. cbn [features].
  destruct (debug_mode c); [apply sublist_take | done].
Qed.

Lemma init_feature_inv dataset_split proc tok c self f :
  __init__ dataset_split proc tok c = Ok self → f ∈ features self →
  complete self f
  ∧ ∃ name feats f0, proc name = Ok feats ∧ f0 ∈ feats ∧ f = inject f0.
Proof.
  intros H Hf.
  destruct (init_features _ _ _ _ _ H)
    as (_ & _ & name & feats & _ & Hfeats & Hsub).
  apply (elem_of_sublist _ _ _ Hf), list_elem_of_filter in Hsub as [Hc Hin].
  apply list_elem_of_fmap in Hin as (f0 & -> & Hf0).
  split; [done|]. by exists name, feats, f0.
Qed.

(** X11. In a dataset built by the constructor every example is an example
    of the processor in which only the label [utterance] was set: it holds
    the utterance, and the [example_id], the utterance, the possible labels
    and every other label are those the processor returned. *)
Theorem features_from_processor dataset_split proc tok c self f :
  __init__ dataset_split proc tok c = Ok self → f ∈ features self →
  labels (data f) !! "utterance" = Some (utterance (data f))
  ∧ ∃ name feats f0,
      proc name = Ok feats ∧ f0 ∈ feats
      ∧ example_id (data f) = example_id (data f0)
      ∧ utterance (data f) = utterance (data f0)
      ∧ possible_labels (data f) = possible_labels (data f0)
      ∧ ∀ k, k ≠ "utterance" → labels (data f) !! k = labels (data f0) !! k.
Proof.
  intros H Hf.
  destruct (init_feature_inv _ _ _ _ _ _ H Hf)
    as (_ & name & feats & f0 & Hfeats & Hf0 & ->).
  split; [apply lookup_insert_eq|].
  exists name, feats, f0. split_and!; try done.
  intros k Hk. simpl. by rewrite lookup_insert_ne.
Qed.

(** X12. The examples of a dataset keep the order of the processor's list
    and none is added: their ids form a sublist of the ids the processor
    returned, so [__len__] is at most the number of examples of the
    processor; on the MS MARCO processor the ids increase strictly. *)
Theorem features_in_order dataset_split proc tok c self :
  __init__ dataset_split proc tok c = Ok self →
  (∃ name feats,
     proc name = Ok feats
     ∧ map (λ f, example_id (data f)) (features self)
       `sublist_of` map (λ f, example_id (data f)) feats
     ∧ __len__ self ≤ length feats)
  ∧ (∀ max_digits le p, proc = get_dialog_examples max_digits le p →
       StronglySorted lt (map (λ f, example_id (data f)) (features self))).
Proof.
  intros H.
  destruct (init_features _ _ _ _ _ H)
    as (_ & _ & name & feats & _ & Hfeats & Hsub).
  assert (map (λ f, example_id (data f)) (features self)
          `sublist_of` map (λ f, example_id (data f)) feats) as Hids.
  { etrans; [by apply sublist_map | apply filter_inject_ids]. }
  split.
  - exists name, feats. split_and!; [done..|].
    apply sublist_length in Hids. by rewrite !length_map in Hids.
  - intros max_digits le p ->.
    apply (StronglySorted_sublist _ _ _ Hids).
    by apply (get_dialog_examples_ids_sorted max_digits le p name).
Qed.

Lemma complete_well_typed self f : complete self f → well_typed self f.
Proof.
  unfold complete, well_typed. intros H. apply (Forall_impl _ _ _ H).
  intros field (s & Hs & _). exists (PStr s). split; [done|]. right. by exists s.
Qed.

(** X13. [remove_invalid_samples] is idempotent: applied to a list it
    returned, it returns that list. *)
Theorem remove_invalid_samples_idempotent self feats out :
  remove_invalid_samples self feats = Ok out →
  remove_invalid_samples self out = Ok out.
Proof.
  intros H. apply remove_invalid_samples_Ok in H as [-> _].
  assert (Forall (λ f, complete self f ∧ inject f = f)
            (filter (complete self) (inject <$> feats))) as Hall.
  { apply Forall_forall. intros f Hf.
    apply list_elem_of_filter in Hf as [Hc Hf]. split; [done|].
    apply list_elem_of_fmap in Hf as (f0 & -> & _). apply inject_idem. }
  set (out := filter (complete self) (inject <$> feats)) in *.
  assert (is_Ok (remove_invalid_samples self out)) as Hok.
  { apply remove_invalid_samples_total.
    apply (Forall_impl _ _ _ Hall). intros f [Hc ->].
    by apply complete_well_typed. }
  destruct (remove_invalid_samples self out) as [out'|] eqn:E; [|done].
  apply remove_invalid_samples_Ok in E as [-> _]. f_equal.
  clear Hok. induction Hall as [|f l [Hc Hf] _ IH]; [done|].
  rewrite fmap_cons, Hf, filter_cons_True by done. by rewrite IH.
Qed.

Lemma getitem_out_of_range {A : Type} (l : list A) idx :
  (Z.of_nat (length l) ≤ idx)%Z ∨ (idx < - Z.of_nat (length l))%Z →
  getitem l idx = Raise IndexError.
Proof.
  unfold getitem. intros [Hidx|Hidx].
  - rewrite !(proj2 (Z.ltb_ge idx 0)) by lia.
    by rewrite lookup_ge_None_2 by lia.
  - rewrite (proj2 (Z.ltb_lt idx 0)) by lia.
    by rewrite (proj2 (Z.ltb_lt (idx + Z.of_nat (length l)) 0)) by lia.
Qed.

Lemma getitem_negative {A : Type} (l : list A) idx :
  (- Z.of_nat (length l) ≤ idx < 0)%Z →
  getitem l idx = getitem l (idx + Z.of_nat (length l)).
Proof.
  unfold getitem. intros Hidx.
  rewrite (proj2 (Z.ltb_lt idx 0)) by lia.
  by rewrite !(proj2 (Z.ltb_ge (idx + Z.of_nat (length l)) 0)) by lia.
Qed.

(** X15. [__getitem__] follows the indexing of Python lists: an index at or
    beyond [__len__], or below its opposite, raises [IndexError], and a
    negative index [idx] in range retrieves what [idx + __len__] does. *)
Theorem getitem_index_range self idx :
  ((Z.of_nat (__len__ self) ≤ idx)%Z ∨ (idx < - Z.of_nat (__len__ self))%Z →
     __getitem__ self idx = Raise IndexError)
  ∧ ((- Z.of_nat (__len__ self) ≤ idx < 0)%Z →
     __getitem__ self idx = __getitem__ self (idx + Z.of_nat (__len__ self))).
Proof.
  unfold __len__, __getitem__, encode_example. split.
  - intros Hidx. by rewrite getitem_out_of_range.
  - intros Hidx. by rewrite getitem_negative.
Qed.

Lemma getitem_in_range {A : Type} (l : list A) idx :
  (- Z.of_nat (length l) ≤ idx < Z.of_nat (length l))%Z →
  ∃ x, getitem l idx = Ok x.
Proof.
  intros Hidx. destruct (decide (idx < 0)%Z) as [Hneg|Hpos].
  - rewrite getitem_negative by lia.
    replace (idx + Z.of_nat (length l))%Z
      with (Z.of_nat (Z.to_nat (idx + Z.of_nat (length l)))) by lia.
    rewrite getitem_nat.
    destruct (lookup_lt_is_Some_2 l (Z.to_nat (idx + Z.of_nat (length l))))
      as [x ->]; [lia|]. by exists x.
  - replace idx with (Z.of_nat (Z.to_nat idx)) by lia.
    rewrite getitem_nat.
    destruct (lookup_lt_is_Some_2 l (Z.to_nat idx)) as [x ->]; [lia|].
    by exists x.
Qed.

Lemma format_prompt_retained self f0 :
  Forall (field_present (labels (data (inject f0))))
         (split "+" (input_field (cfg self))) →
  ∃ prompt,
    format_prompt self (data (inject f0)) = Ok (data (inject f0), prompt).
Proof.
  intros Hc. apply present_values in Hc as [values Hvalues].
  assert (set_utterance (data (inject f0)) = data (inject f0)) as Hidem.
  { change (data (inject (inject f0)) = data (inject f0)).
    by rewrite inject_idem. }
  unfold format_prompt, input_label_type. rewrite Hidem.
  rewrite (format_fragments _ _ values) by done. by eexists.
Qed.

(** X16. In a dataset built by the constructor with an [output_field] that
    names a single field, [__getitem__] returns for every index in range as
    soon as the tokenizer accepts every string: the prompt and the target
    of a retained example are strings, and no label look-up fails. *)
Theorem getitem_total dataset_split proc tok c self idx :
  __init__ dataset_split proc tok c = Ok self →
  split "+" (output_field c) = [output_field c] →
  (∀ s, is_Ok (tokenizer tok (PStr s) (max_seq_length c) MaxLength)) →
  (- Z.of_nat (__len__ self) ≤ idx < Z.of_nat (__len__ self))%Z →
  is_Ok (__getitem__ self idx).
Proof.
  intros Hinit Hout Htok Hidx.
  destruct (getitem_in_range (features self) idx Hidx) as [f Hf].
  destruct (init_features _ _ _ _ _ Hinit) as (Hcfg & Htk & _).
  destruct (init_feature_inv _ _ _ _ _ f Hinit (getitem_elem _ _ _ Hf))
    as (Hc & _ & _ & f0 & _ & _ & ->).
  unfold complete, all_fields, input_label_type, output_label_type in Hc.
  rewrite Hcfg, Hout in Hc. apply Forall_app in Hc as [Hin Hc].
  apply Forall_singleton in Hc as (target & Htarget & _).
  rewrite <- Hcfg in Hin.
  destruct (format_prompt_retained self f0 Hin) as [prompt Hprompt].
  unfold __getitem__, encode_example. rewrite Hf. cbn [bind].
  rewrite Hprompt. cbn [bind]. unfold getkey, output_label_type.
  rewrite Hcfg, Htarget. cbn [bind]. unfold default_encode.
  rewrite Hcfg, Htk.
  pose proof (Htok prompt) as Hp. pose proof (Htok target) as Ht.
  destruct (tokenizer tok (PStr prompt) _ _); [|done]. cbn [bind].
  by destruct (tokenizer tok (PStr target) _ _).
Qed.

Lemma processor_example_labels max_digits le p split feats f0 k :
  get_dialog_examples max_digits le p split = Ok feats → f0 ∈ feats →
  k ∉ ["service"; "response"; "fluent_response"; "passage"; "utterance"] →
  labels (data (inject f0)) !! k = None.
Proof.
  intros Hfeats Hf0 Hk.
  destruct (get_dialog_examples_elem max_digits le _ _ _ _ Hfeats Hf0)
    as (raw & i & Hi).
  destruct (make_example_shape max_digits le _ _ _ Hi)
    as (qt & a & fl & pa & texts & Hlabels & _).
  simpl. rewrite Hlabels.
  rewrite !elem_of_cons, elem_of_nil in Hk.
  rewrite !lookup_insert_ne, lookup_empty; [done|..]; intros <-; tauto.
Qed.

(** X17. On the examples of the MS MARCO processor an [output_field] that
    is none of the five label names (a '+'-joined one, for instance) lets
    the constructor filter on its parts, but [__getitem__] looks the whole
    name up and raises [KeyError] at every index it reaches. *)
Theorem combined_output_KeyError dataset_split max_digits le p tok c self
  idx f :
  __init__ dataset_split (get_dialog_examples max_digits le p) tok c = Ok self →
  output_field c
  ∉ ["service"; "response"; "fluent_response"; "passage"; "utterance"] →
  getitem (features self) idx = Ok f →
  __getitem__ self idx = Raise KeyError.
Proof.
  intros Hinit Hout Hf.
  destruct (init_features _ _ _ _ _ Hinit) as (Hcfg & _ & _).
  destruct (init_feature_inv _ _ _ _ _ f Hinit (getitem_elem _ _ _ Hf))
    as (Hc & name & feats & f0 & Hfeats & Hf0 & ->).
  unfold complete, all_fields, input_label_type in Hc.
  apply Forall_app in Hc as [Hin _].
  destruct (format_prompt_retained self f0 Hin) as [prompt Hprompt].
  unfold __getitem__, encode_example. rewrite Hf. cbn [bind].
  rewrite Hprompt. cbn [bind]. unfold getkey, output_label_type.
  rewrite Hcfg.
  by rewrite (processor_example_labels max_digits le p name feats f0 _ Hfeats Hf0
                Hout).
Qed.

(** X18. The field names of the configuration are not checked on their own:
    on an empty list [remove_invalid_samples] returns the empty list
    whatever they are, whereas on a non-empty list of examples of the
    MS MARCO processor a field name that is none of the five label names
    makes it raise. *)
Theorem unknown_field_fails self :
  remove_invalid_samples self [] = Ok []
  ∧ ∀ max_digits le p name feats field,
      get_dialog_examples max_digits le p name = Ok feats → feats ≠ [] →
      field ∈ split "+" (input_field (cfg self))
              ++ split "+" (output_field (cfg self)) →
      field
      ∉ ["service"; "response"; "fluent_response"; "passage"; "utterance"] →
      ¬ is_Ok (remove_invalid_samples self feats).
Proof.
  split; [done|].
  intros max_digits le p name feats field Hfeats Hne Hfield Hunknown Hok.
  destruct (remove_invalid_samples self feats) as [out|] eqn:E; [|done].
  apply remove_invalid_samples_Ok in E as [_ Hall].
  destruct feats as [|f0 feats]; [done|].
  apply Forall_cons in Hall as [Hf0 _].
  rewrite Forall_forall in Hf0. specialize (Hf0 field Hfield).
  pose proof (processor_example_labels max_digits le p name _ f0 field Hfeats
                (list_elem_of_here _ _) Hunknown) as Hnone.
  destruct Hf0 as [(s & Hs & _)|(v & Hv & _)]; congruence.
Qed.

(** X19. When the padding id is not -100 itself, the target sequence that
    [__getitem__] returns holds the padding id nowhere; it is as long as the
    tokenized target, and masking it again changes nothing. *)
Theorem no_pad_in_labels self idx ids mask lbls :
  __getitem__ self idx = Ok (ids, mask, lbls) →
  (pad_token_id (tokenizer_obj self) ≠ (-100)%Z →
     pad_token_id (tokenizer_obj self) ∉ lbls)
  ∧ mask_padding (pad_token_id (tokenizer_obj self)) lbls = lbls.
Proof.
  unfold __getitem__. intros H.
  apply bind_Ok_inv in H as ([enc_in enc_out] & _ & [= _ _ <-]).
  set (pad := pad_token_id (tokenizer_obj self)).
  split.
  - intros Hpad Hin. unfold mask_padding in Hin.
    apply list_elem_of_fmap in Hin as (t & Ht & _).
    destruct (Z.eqb_spec t pad); congruence.
  - unfold mask_padding. rewrite map_map. apply map_ext. intros t.
    destruct (Z.eqb_spec t pad) as [->|Ht].
    + destruct (Z.eqb_spec (-100) pad); congruence.
    + by destruct (Z.eqb_spec t pad).
Qed.

(** X20. [get_n_tokens_in_sentence] returns the number of token ids, except
    that a sentence of exactly one token is counted as 0: squeezing its
    tensor leaves no dimension.  The function never returns 1. *)
Theorem n_tokens_never_one self sentence enc :
  tokenizer (tokenizer_obj self) sentence (max_seq_length (cfg self)) NoPadding
  = Ok enc →
  get_n_tokens_in_sentence self sentence
  = Ok (if decide (length (input_ids enc) = 1) then 0
        else length (input_ids enc))
  ∧ get_n_tokens_in_sentence self sentence ≠ Ok 1.
Proof.
  intros H. unfold get_n_tokens_in_sentence. rewrite H. cbn [bind].
  unfold squeeze_shape.
  rewrite filter_cons_False by (intros Hne; by apply Hne).
  destruct (decide (length (input_ids enc) = 1)) as [Hone|Hone].
  - rewrite filter_cons_False by (intros Hne; by apply Hne). by split.
  - rewrite filter_cons_True by done. simpl. split; [done|].
    intros [= Heq]. by apply Hone.
Qed.

Lemma for_each_app {A S : Type} (body : S → A → result S) l1 l2 acc :
  for_each body (l1 ++ l2) acc
  = (acc' <- for_each body l1 acc ;; for_each body l2 acc').
Proof.
  revert acc. induction l1 as [|x l1 IH]; intros acc; simpl; [done|].
  destruct (body acc x); simpl; [apply IH | done].
Qed.

(** X21. [format_prompt] on an example that was not filtered: at the first
    field name of [input_field] whose label is not a string it raises
    [KeyError] when the example has no such label and [TypeError] when the
    label is [None] or another value that is no string. *)
Theorem format_prompt_errors self ex pre part post :
  split "+" (input_field (cfg self)) = pre ++ part :: post →
  Forall (λ p, ∃ s, labels (set_utterance ex) !! p = Some (PStr s)) pre →
  (labels (set_utterance ex) !! part = None →
     format_prompt self ex = Raise KeyError)
  ∧ (∀ v, labels (set_utterance ex) !! part = Some v → (∀ s, v ≠ PStr s) →
       format_prompt self ex = Raise TypeError).
Proof.
  intros Hparts Hpre.
  assert (∃ values, Forall2 (λ p v, labels (set_utterance ex) !! p
                                    = Some (PStr v)) pre values)
    as [values Hvalues].
  { clear Hparts. induction Hpre as [|p pre [v Hv] _ [values IH]].
    - by exists [].
    - exists (v :: values). by constructor. }
  unfold format_prompt, input_label_type. rewrite Hparts.
  rewrite for_each_app, (format_fragments _ _ values) by done.
  cbn [bind for_each]. unfold getkey. split.
  - by intros ->.
  - intros v -> Hv. cbn [bind]. destruct v; try done. by destruct (Hv s).
Qed.

(** The dataset built from the sample test split with
    [input_field = "passage+utterance"]: records 1 and 2 are retained. *)
Lemma features_from_processor_sample :
  ∃ self f,
    __init__ (inl "test")
      (get_dialog_examples Sample.max_str_digits Sample.literal_eval_str
          Sample.processor)
      Sample.char_tokenizer Sample.passage_config = Ok self
    ∧ f ∈ features self
    ∧ labels (data f) !! "utterance" = Some (utterance (data f)).
Proof.
  assert (match __init__ (inl "test")
      (get_dialog_examples Sample.max_str_digits Sample.literal_eval_str
          Sample.processor)
      Sample.char_tokenizer Sample.passage_config
          with Ok self => __len__ self | Raise _ => 0 end = 2) as Hlen
    by (vm_compute; reflexivity).
  destruct (__init__ (inl "test")
      (get_dialog_examples Sample.max_str_digits Sample.literal_eval_str
          Sample.processor)
      Sample.char_tokenizer Sample.passage_config) as [self|e] eqn:E;
    [|discriminate Hlen].
  unfold __len__ in Hlen.
  destruct (features self) as [|f l] eqn:F; [discriminate Hlen|].
  assert (f ∈ features self) as Hf by (rewrite F; apply list_elem_of_here).
  exists self, f. split_and!; [reflexivity | exact Hf |].
  by destruct (features_from_processor _ _ _ _ _ f E Hf) as [Hu _].
Defined.

Lemma features_in_order_sample :
  ∃ self,
    __init__ (inl "test")
      (get_dialog_examples Sample.max_str_digits Sample.literal_eval_str
          Sample.processor)
      Sample.char_tokenizer Sample.passage_config = Ok self
    ∧ StronglySorted lt (map (λ f, example_id (data f)) (features self)).
Proof.
  assert (is_Ok (__init__ (inl "test")
      (get_dialog_examples Sample.max_str_digits Sample.literal_eval_str
          Sample.processor)
      Sample.char_tokenizer Sample.passage_config)) as Hok
    by (vm_compute; exact I).
  destruct (__init__ (inl "test")
      (get_dialog_examples Sample.max_str_digits Sample.literal_eval_str
          Sample.processor)
      Sample.char_tokenizer Sample.passage_config) as [self|e] eqn:E;
    [|destruct Hok].
  exists self. split; [reflexivity|].
  destruct (features_in_order _ _ _ _ _ E) as [_ Hsorted].
  by apply (Hsorted Sample.max_str_digits Sample.literal_eval_str
      Sample.processor).
Defined.

Lemma remove_invalid_samples_idempotent_sample :
  remove_invalid_samples (Sample.passage_dataset [])
    [inject Sample.passage_example]
  = Ok [inject Sample.passage_example].
Proof.
  apply (remove_invalid_samples_idempotent (Sample.passage_dataset [])
           [Sample.no_passage_example; Sample.passage_example]).
  vm_compute. reflexivity.
Defined.

Lemma getitem_index_range_sample :
  __getitem__ (Sample.passage_dataset [inject Sample.passage_example]) 1
  = Raise IndexError
  ∧ __getitem__ (Sample.passage_dataset [inject Sample.passage_example]) (-1)
    = __getitem__ (Sample.passage_dataset [inject Sample.passage_example]) 0.
Proof.
  destruct (getitem_index_range
              (Sample.passage_dataset [inject Sample.passage_example]) 1)
    as [Hout _].
  destruct (getitem_index_range
              (Sample.passage_dataset [inject Sample.passage_example]) (-1))
    as [_ Hneg].
  split.
  - apply Hout. left. change (1 ≤ 1)%Z. lia.
  - apply Hneg. change (- 1 ≤ -1 < 0)%Z. lia.
Defined.

Lemma getitem_total_sample :
  ∃ self,
    __init__ (inl "test")
      (get_dialog_examples Sample.max_str_digits Sample.literal_eval_str
          Sample.processor)
      Sample.char_tokenizer Sample.passage_config = Ok self
    ∧ is_Ok (__getitem__ self 1).
Proof.
  assert (match __init__ (inl "test")
      (get_dialog_examples Sample.max_str_digits Sample.literal_eval_str
          Sample.processor)
      Sample.char_tokenizer Sample.passage_config
          with Ok self => __len__ self | Raise _ => 0 end = 2) as Hlen
    by (vm_compute; reflexivity).
  destruct (__init__ (inl "test")
      (get_dialog_examples Sample.max_str_digits Sample.literal_eval_str
          Sample.processor)
      Sample.char_tokenizer Sample.passage_config) as [self|e] eqn:E;
    [|discriminate Hlen].
  exists self. split; [reflexivity|].
  apply (getitem_total _ _ _ _ _ 1 E); [reflexivity | | lia].
  intros s. exact I.
Defined.

(** With the combined output field, records 4 and 8 of the sample train
    split pass the filter, and retrieving them fails. *)
Lemma combined_output_KeyError_sample :
  ∃ self,
    __init__ (inl "train")
      (get_dialog_examples Sample.max_str_digits Sample.literal_eval_str
          Sample.processor)
      Sample.char_tokenizer Sample.combined_config = Ok self
    ∧ __len__ self = 2
    ∧ __getitem__ self 0 = Raise KeyError.
Proof.
  assert (match __init__ (inl "train")
      (get_dialog_examples Sample.max_str_digits Sample.literal_eval_str
          Sample.processor)
      Sample.char_tokenizer Sample.combined_config
          with Ok self => __len__ self | Raise _ => 0 end = 2) as Hlen
    by (vm_compute; reflexivity).
  destruct (__init__ (inl "train")
      (get_dialog_examples Sample.max_str_digits Sample.literal_eval_str
          Sample.processor)
      Sample.char_tokenizer Sample.combined_config) as [self|e] eqn:E;
    [|discriminate Hlen].
  exists self. split_and!; [reflexivity | exact Hlen |].
  destruct (getitem_in_range (features self) 0) as [f Hf];
    [unfold __len__ in Hlen; lia|].
  apply (combined_output_KeyError _ _ _ _ _ _ _ 0 f E); [|exact Hf].
  simpl. rewrite !elem_of_cons, elem_of_nil.
  intros [|[|[|[|[|]]]]]; done.
Defined.

Lemma unknown_field_fails_sample :
  ∃ feats,
    get_dialog_examples Sample.max_str_digits Sample.literal_eval_str
        Sample.processor "test"
    = Ok feats
    ∧ ¬ is_Ok (remove_invalid_samples
                 {| cfg := Sample.question_config;
                    tokenizer_obj := Sample.char_tokenizer;
                    features := feats |} feats).
Proof.
  assert (match get_dialog_examples
      Sample.max_str_digits Sample.literal_eval_str Sample.processor
                  "test" with Ok exs => length exs | Raise _ => 0 end = 3)
    as Hlen by (vm_compute; reflexivity).
  destruct (get_dialog_examples Sample.max_str_digits Sample.literal_eval_str
      Sample.processor "test")
    as [feats|e] eqn:E; [|discriminate Hlen].
  exists feats. split; [reflexivity|].
  destruct (unknown_field_fails
              {| cfg := Sample.question_config;
                 tokenizer_obj := Sample.char_tokenizer;
                 features := feats |}) as [_ Hfail].
  apply (Hfail Sample.max_str_digits Sample.literal_eval_str
      Sample.processor "test" feats
           "question" E).
  - by intros ->.
  - apply list_elem_of_here.
  - rewrite !elem_of_cons, elem_of_nil. intros [|[|[|[|[|]]]]]; done.
Defined.

Lemma no_pad_in_labels_sample :
  ∃ ids mask lbls,
    __getitem__ (Sample.passage_dataset [inject Sample.passage_example]) 0
    = Ok (ids, mask, lbls)
    ∧ 0%Z ∉ lbls.
Proof.
  assert (is_Ok (__getitem__
            (Sample.passage_dataset [inject Sample.passage_example]) 0))
    as Hok by (vm_compute; exact I).
  destruct (__getitem__
              (Sample.passage_dataset [inject Sample.passage_example]) 0)
    as [[[ids mask] lbls]|e] eqn:E; [|destruct Hok].
  exists ids, mask, lbls. split; [reflexivity|].
  by apply (no_pad_in_labels _ _ _ _ _ E).
Defined.

(** The character tokenizer gives the sentence "a" one token. *)
Lemma n_tokens_never_one_sample :
  get_n_tokens_in_sentence (Sample.passage_dataset []) (PStr "a") = Ok 0
  ∧ get_n_tokens_in_sentence (Sample.passage_dataset []) (PStr "ab") = Ok 2.
Proof.
  split.
  - by apply (n_tokens_never_one (Sample.passage_dataset []) (PStr "a")
                {| input_ids := [97%Z]; attention_mask := [1%Z] |}).
  - by apply (n_tokens_never_one (Sample.passage_dataset []) (PStr "ab")
                {| input_ids := [97%Z; 98%Z]; attention_mask := [1%Z; 1%Z] |}).
Defined.

(** The example without a passage, had it not been filtered out. *)
Lemma format_prompt_errors_sample :
  format_prompt (Sample.passage_dataset []) (data Sample.no_passage_example)
  = Raise TypeError.
Proof.
  destruct (format_prompt_errors (Sample.passage_dataset [])
              (data Sample.no_passage_example) [] "passage" ["utterance"])
    as [_ Htype]; [reflexivity | constructor |].
  by apply (Htype PNone).
Defined.

End DatasetExtras.
